(** * IDAES process-systems toolkit: examples CLI, ideal equation of state,
      DAE categorisation

    Three parts of the repository are embedded here:

    - [Examples]: [idaes/commands/examples.py], the [get-examples] command.
      Python code with side effects becomes a state-and-exception monad over
      a world made of a file system, the process state and the trace of the
      effects performed so far.
    - [Ideal]: [idaes/generic_models/properties/core/eos/ideal.py], the
      methods of the ideal equation of state, which build symbolic
      expressions.
    - [Categorize]: [categorize_dae_variables_and_constraints], exercised by
      [idaes/apps/caprese/tests/test_categorize.py]. *)

From Stdlib Require Import Ascii String DecimalString ZArith QArith Sorted Permutation Lia.
From stdpp Require Import base decidable option list gmap sets strings.

Local Open Scope string_scope.
Local Open Scope list_scope.

(* ===================================================================== *)
(** * Part I: definitions *)
(* ===================================================================== *)

Module Examples.

(** The calls to the logger write to no file and decide nothing: they are
    left out. [click.echo] and [print] both write to standard output and
    are one effect, [Echo]. *)

(** ** Module constants *)

Definition GITHUB : string := "https://github.com".
Definition GITHUB_API : string := "https://api.github.com".
Definition REPO_ORG : string := "idaes".
Definition REPO_NAME : string := "examples-pse".
Definition REPO_DIR : string := "src".
Definition INSTALL_PKG : string := "idaes_examples".

(** [_skip_prereleases = False] in the source. *)
Definition _skip_prereleases : bool := false.

(** ** Paths

    A [pathlib.Path] is a sequence of components, absolute or relative to
    the current directory.  Components are plain names: [..] and symbolic
    links are not modelled. *)

Inductive pth :=
| Abs (parts : list string)
| Rel (parts : list string).

Definition parts (p : pth) : list string :=
  match p with Abs l | Rel l => l end.

(** [p.parent] *)
Definition parent (p : pth) : pth :=
  match p with
  | Abs l => Abs (removelast l)
  | Rel l => Rel (removelast l)
  end.


Fixpoint join_with (sep : string) (l : list string) : string :=
  match l with
  | [] => ""
  | [x] => x
  | x :: xs => x +:+ sep +:+ join_with sep xs
  end.

(** [str(p)] *)
Definition str_path (p : pth) : string :=
  match p with
  | Abs l => "/" +:+ join_with "/" l
  | Rel [] => "."
  | Rel l => join_with "/" l
  end.

(** Splitting of a path string at its slashes; [acc] is the component being
    read. Empty components and [.] are dropped, as [pathlib] does. *)
Fixpoint split_slash (s : string) (acc : string) : list string :=
  match s with
  | EmptyString => [acc]
  | String c s' =>
      if Ascii.eqb c "/"%char then acc :: split_slash s' ""
      else split_slash s' (acc +:+ String c EmptyString)
  end.

Definition keep_component (c : string) : bool :=
  negb (String.eqb c "" || String.eqb c ".").

(** [Path(s)] *)
Definition Path (s : string) : pth :=
  let comps := List.filter keep_component (split_slash s "") in
  match s with
  | String "/"%char _ => Abs comps
  | _ => Rel comps
  end.

(** [p / s] *)
Definition joinpath (p : pth) (s : string) : pth :=
  match Path s, p with
  | Abs l, _ => Abs l
  | Rel l, Abs q => Abs (q ++ l)
  | Rel l, Rel q => Rel (q ++ l)
  end.

Infix "//" := joinpath (at level 40, left associativity).

(** ** The file system

    A finite map from absolute component lists to nodes. The root [[]]
    always exists. *)

Inductive node :=
| Dir
| File (data : string).

Global Instance node_eq_dec : EqDecision node.
Proof. solve_decision. Defined.

Definition fs_exists (fs : gmap (list string) node) (k : list string) : bool :=
  bool_decide (k = []) || bool_decide (is_Some (fs !! k)).

Definition fs_is_dir (fs : gmap (list string) node) (k : list string) : bool :=
  bool_decide (k = []) || bool_decide (fs !! k = Some Dir).

(** The entries at or below [k], and the others. *)
Definition fs_subtree (fs : gmap (list string) node) (k : list string)
  : gmap (list string) node :=
  filter (λ kv, k `prefix_of` kv.1) fs.

Definition fs_remove (fs : gmap (list string) node) (k : list string)
  : gmap (list string) node :=
  filter (λ kv, ¬ k `prefix_of` kv.1) fs.

Definition retarget (src dst : list string) (kv : list string * node)
  : list string * node :=
  (dst ++ drop (length src) kv.1, kv.2).

(** The tree at [src] moved to [dst]. *)
Definition fs_move (fs : gmap (list string) node) (src dst : list string)
  : gmap (list string) node :=
  list_to_map (retarget src dst <$> map_to_list (fs_subtree fs src))
    ∪ fs_remove fs src.

(** The members of an archive unpacked below [dst]. *)
Definition fs_unpack (fs : gmap (list string) node) (dst : list string)
    (members : list (list string * node)) : gmap (list string) node :=
  list_to_map ((λ m, (dst ++ m.1, m.2)) <$> members) ∪ fs.

(** ** Exceptions, effects and the world *)

Inductive exn :=
| DownloadError (msg : string)
| InstallError (msg : string)
| SystemExit (code : Z)
| FileNotFoundError (k : list string)
| FileExistsError (k : list string)
| IsADirectoryError (k : list string)
| BadZipFile
| SetupError (msg : string).

(** The effects a run performs, in the order it performs them. *)
Inductive event :=
| Echo (s : string)                      (* click.echo, print *)
| HttpGet (url : string)                 (* requests.get *)
| MkTemp (d : list string)               (* TemporaryDirectory() *)
| RmTemp (d : list string)               (* del tmpdir *)
| WriteFile (k : list string)            (* open("wb"), write *)
| ExtractAll (dst : list string)         (* ZipFile.extractall *)
| Rename (src dst : list string)         (* os.rename *)
| Rmtree (k : list string)               (* shutil.rmtree *)
| Touch (k : list string)                (* open("w") *)
| Unlink (k : list string)               (* Path.unlink *)
| Chdir (k : list string)                (* os.chdir *)
| Setup (pkg version : string) (packages : list string).

Record world := World {
  w_fs : gmap (list string) node;
  w_cwd : list string;
  w_argv : list string;
  w_trace : list event
}.

Definition with_fs (w : world) (fs : gmap (list string) node) : world :=
  World fs (w_cwd w) (w_argv w) (w_trace w).
Definition with_cwd (w : world) (d : list string) : world :=
  World (w_fs w) d (w_argv w) (w_trace w).
Definition with_argv (w : world) (a : list string) : world :=
  World (w_fs w) (w_cwd w) a (w_trace w).
Definition with_event (w : world) (e : event) : world :=
  World (w_fs w) (w_cwd w) (w_argv w) (w_trace w ++ [e]).

Inductive result (A : Type) :=
| Ret (a : A)
| Raise (e : exn).
Arguments Ret {A} a.
Arguments Raise {A} e.

Definition M (A : Type) : Type := world → result A * world.

Global Instance M_ret : MRet M := λ A a w, (Ret a, w).
Global Instance M_bind : MBind M := λ A B k m w,
  match m w with
  | (Ret a, w') => k a w'
  | (Raise e, w') => (Raise e, w')
  end.

Definition raise {A} (e : exn) : M A := λ w, (Raise e, w).

(** [try: m except ...: h]; [h e = None] when no clause catches [e]. *)
Definition try_except {A} (m : M A) (h : exn → option (M A)) : M A := λ w,
  match m w with
  | (Raise e, w') =>
      match h e with
      | Some k => k w'
      | None => (Raise e, w')
      end
  | r => r
  end.

(** [if c: m] *)
Definition when (c : bool) (m : M unit) : M unit :=
  if c then m else mret tt.

(** [for a in l: f a] *)
Fixpoint for_each {A} (l : list A) (f : A → M unit) : M unit :=
  match l with
  | [] => mret tt
  | a :: l' => f a;; for_each l' f
  end.

Definition emit (e : event) : M unit := λ w, (Ret tt, with_event w e).
Definition get_world : M world := λ w, (Ret w, w).
Definition set_fs (fs : gmap (list string) node) : M unit :=
  λ w, (Ret tt, with_fs w fs).
Definition set_cwd (k : list string) : M unit :=
  λ w, (Ret tt, with_cwd w k).

Definition resolve (w : world) (p : pth) : list string :=
  match p with
  | Abs l => l
  | Rel l => w_cwd w ++ l
  end.

(** [sys.exit(code)] raises [SystemExit]. *)
Definition sys_exit {A} (code : Z) : M A := raise (SystemExit code).

Definition echo (s : string) : M unit := emit (Echo s).

(** [p.exists()] *)
Definition path_exists (p : pth) : M bool :=
  w ← get_world; mret (fs_exists (w_fs w) (resolve w p)).

(** [os.path.realpath(p)] *)
Definition realpath (p : pth) : M string :=
  w ← get_world; mret (str_path (Abs (resolve w p))).

(** [os.rename(src, dst)]: the source must exist, the directory that
    receives it too, and the destination must be free. *)
Definition os_rename (src dst : pth) : M unit :=
  w ← get_world;
  let s := resolve w src in
  let d := resolve w dst in
  emit (Rename s d);;
  if negb (fs_exists (w_fs w) s) then raise (FileNotFoundError s)
  else if negb (fs_is_dir (w_fs w) (removelast d)) then
    raise (FileNotFoundError d)
  else if fs_exists (w_fs w) d then raise (FileExistsError d)
  else set_fs (fs_move (w_fs w) s d).

(** [shutil.rmtree(p)]: raises when there is nothing at [p]. *)
Definition rmtree (p : pth) : M unit :=
  w ← get_world;
  let k := resolve w p in
  emit (Rmtree k);;
  if fs_exists (w_fs w) k then set_fs (fs_remove (w_fs w) k)
  else raise (FileNotFoundError k).

(** [p.open("w")] and [p.open("wb")] followed by the writes: the file is
    created or truncated, its directory must exist. *)
Definition write_to (ev : list string → event) (p : pth) (data : string)
  : M unit :=
  w ← get_world;
  let k := resolve w p in
  emit (ev k);;
  if negb (fs_is_dir (w_fs w) (removelast k)) then raise (FileNotFoundError k)
  else if fs_is_dir (w_fs w) k then raise (IsADirectoryError k)
  else set_fs (<[k := File data]> (w_fs w)).

(** [p.unlink()] *)
Definition unlink (p : pth) : M unit :=
  w ← get_world;
  let k := resolve w p in
  emit (Unlink k);;
  match w_fs w !! k with
  | Some (File _) => set_fs (delete k (w_fs w))
  | Some Dir => raise (IsADirectoryError k)
  | None => raise (FileNotFoundError k)
  end.

(** [os.chdir(p)] *)
Definition chdir (p : pth) : M unit :=
  w ← get_world;
  let k := resolve w p in
  emit (Chdir k);;
  if fs_is_dir (w_fs w) k then set_cwd k
  else raise (FileNotFoundError k).

Definition get_argv : M (list string) := w ← get_world; mret (w_argv w).
Definition set_argv (a : list string) : M unit := λ w, (Ret tt, with_argv w a).

(** ** What the command reads from outside

    The package version comes from [idaes.ver]; the rest is the network,
    the operating system and [setuptools]. *)

Record http_response := {
  status_code : Z;
  content : string
}.

(** An entry of the JSON list the releases API answers. *)
Record release_obj := {
  rel_published_at : string;
  rel_tag_name : string;
  rel_name : string;
  rel_prerelease : bool
}.

Record env := {
  PKG_VERSION : string;
  (** [requests.get(url)] *)
  env_get : string → http_response;
  (** [req.json()] *)
  env_json : string → list release_obj;
  (** the members of a zip file, directories included; [None] when the
      data is not a zip file *)
  env_unzip : string → option (list (list string * node));
  (** the directory [TemporaryDirectory()] creates *)
  env_tmpdir : list string;
  (** [str(uuid1())] *)
  env_uuid1 : string;
  (** [setuptools.find_packages()] in the current directory *)
  env_find_packages : list string → gmap (list string) node → list string;
  (** [setuptools.setup(...)] run in the current directory *)
  env_setup : string → string → list string → list string →
              gmap (list string) node →
              option exn * gmap (list string) node
}.

(** A release as [get_releases] returns it: (date, tag, info). *)
Definition release : Type := string * string * string.

Definition rel_date (r : release) : string := r.1.1.
Definition rel_tag (r : release) : string := r.1.2.
Definition rel_info (r : release) : string := r.2.

(** [releases.sort(key=itemgetter(0))]: Python compares the dates as
    strings, and its sort is stable. The model is a stable insertion sort. *)
Fixpoint insert_by_date (x : release) (l : list release) : list release :=
  match l with
  | [] => [x]
  | y :: l' =>
      if String.leb (rel_date x) (rel_date y) then x :: l
      else y :: insert_by_date x l'
  end.

Definition sort_by_date (l : list release) : list release :=
  foldr insert_by_date [] l.

(** [archive_file_url(version, org, repo)] *)
Definition archive_file_url (version org repo : string) : string :=
  GITHUB +:+ "/" +:+ org +:+ "/" +:+ repo +:+ "/archive/" +:+ version
    +:+ ".zip".

Definition string_of_Z (z : Z) : string :=
  DecimalString.NilZero.string_of_int (Z.to_int z).

(** [s.endswith(suffix)] *)
Definition endswith (suffix s : string) : bool :=
  String.prefix (String.rev suffix) (String.rev s).

(** The non-empty prefixes of a component list, shortest first. *)
Fixpoint prefixes (l : list string) : list (list string) :=
  match l with
  | [] => []
  | x :: l' => [x] :: (cons x <$> prefixes l')
  end.

Definition extend (p : pth) (l : list string) : pth :=
  match p with
  | Abs q => Abs (q ++ l)
  | Rel q => Rel (q ++ l)
  end.

(** [s.ljust(w)], which is what the format [{x:ws}] does to a string. *)
Definition ljust (s : string) (w : nat) : string :=
  s +:+ string_of_list_ascii (repeat " "%char (w - String.length s)).

(** ["-" * w] *)
Definition dashes (w : nat) : string :=
  string_of_list_ascii (repeat "-"%char w).

Section Commands.

Variable E : env.

(** [requests.get(url)] *)
Definition requests_get (url : string) : M http_response :=
  emit (HttpGet url);; mret (env_get E url).

(** [TemporaryDirectory()]; the result is [tmpdir.name]. *)
Definition TemporaryDirectory : M (list string) :=
  w ← get_world;
  emit (MkTemp (env_tmpdir E));;
  set_fs (<[env_tmpdir E := Dir]> (w_fs w));;
  mret (env_tmpdir E).

(** [del tmpdir]: the temporary directory is removed with its contents.
    The removal that Python performs by itself when an exception unwinds
    the frame and the object is collected is not modelled: after a failure
    the temporary directory is still in the file system. *)
Definition del_tmpdir (d : list string) : M unit :=
  w ← get_world;
  emit (RmTemp d);;
  set_fs (fs_remove (w_fs w) d).

(** [ZipFile(str(p))] *)
Definition ZipFile (p : pth) : M (list (list string * node)) :=
  w ← get_world;
  let k := resolve w p in
  match w_fs w !! k with
  | Some (File data) =>
      match env_unzip E data with
      | Some members => mret members
      | None => raise BadZipFile
      end
  | Some Dir => raise (IsADirectoryError k)
  | None => raise (FileNotFoundError k)
  end.

(** [zipf.extractall(path=dst)] *)
Definition extractall (zipf : list (list string * node)) (dst : pth)
  : M unit :=
  w ← get_world;
  let d := resolve w dst in
  emit (ExtractAll d);;
  set_fs (fs_unpack (w_fs w) d zipf).

Definition get_releases : M (list release) :=
  let url := GITHUB_API +:+ "/repos/" +:+ REPO_ORG +:+ "/" +:+ REPO_NAME
               +:+ "/releases" in
  req ← requests_get url;
  let releases :=
    foldl (λ acc rel,
             if _skip_prereleases && rel_prerelease rel then acc
             else acc ++ [(rel_published_at rel, rel_tag_name rel,
                           rel_name rel)])
          [] (env_json E (content req)) in
  mret (sort_by_date releases).

Definition print_releases (releases : list release) : M unit :=
  match releases with
  | [] => echo "No releases to list"
  | first :: _ =>
      let w0 := String.length (rel_date first) in
      let w1 := foldl (λ w rel, Nat.max w (String.length (rel_tag rel)))
                  7%nat releases in
      let w2 := foldl (λ w rel, Nat.max w (String.length (rel_info rel)))
                  7%nat releases in
      let pad := "  " in
      let fmt date tag name :=
        ljust date w0 +:+ pad +:+ ljust tag w1 +:+ pad +:+ ljust name w2 in
      echo "";;
      echo (fmt "Date" "Version" "Details");;
      echo (fmt (dashes w0) (dashes w1) (dashes w2));;
      for_each releases
        (λ rel, echo (fmt (rel_date rel) (rel_tag rel) (rel_info rel)));;
      echo ""
  end.

Definition download_contents (version : string) (target_dir : pth) : M unit :=
  let url := archive_file_url version REPO_ORG REPO_NAME in
  req ← requests_get url;
  when (negb (status_code req =? 200)%Z)
    (when ((status_code req =? 400)%Z || (status_code req =? 404)%Z)
       (raise (DownloadError "file not found"));;
     raise (DownloadError ("status=" +:+ string_of_Z (status_code req))));;
  tmpdir ← TemporaryDirectory;
  let tmpfile := Abs tmpdir // "examples.zip" in
  write_to WriteFile tmpfile (content req);;
  zipf ← ZipFile tmpfile;
  extractall zipf (Abs tmpdir);;
  let subdir := Abs tmpdir // (REPO_NAME +:+ "-" +:+ version) // REPO_DIR in
  os_rename subdir target_dir;;
  del_tmpdir tmpdir.

Definition download_examples (releases : list release) (target_dir : pth)
    (version : string) : M unit :=
  let matched_release :=
    List.find (λ rel, String.eqb version (rel_tag rel)) releases in
  when (bool_decide (matched_release = None))
    (let how :=
       if String.eqb version (PKG_VERSION E) then "installed"
       else "selected" in
     let how_ver :=
       if String.eqb version (PKG_VERSION E)
       then " and -V/--version to choose a desired version" else "" in
     echo ("No release found matching " +:+ how
             +:+ " IDAES package version '" +:+ version +:+ "'.");;
     echo ("Use -l/--list-releases to see all" +:+ how_ver +:+ ".");;
     sys_exit (-1));;
  ex ← path_exists target_dir;
  when ex
    (echo ("Cannot download: target directory '" +:+ str_path target_dir
             +:+ "' already exists.");;
     sys_exit (-1));;
  try_except (download_contents version target_dir)
    (λ e, match e with
          | DownloadError err =>
              Some (echo ("Download failed: " +:+ err);;
                    rmtree target_dir;;
                    sys_exit (-1))
          | _ => None
          end).

(** [target_dir.rglob("*.py")], as component lists relative to
    [target_dir]. *)
Definition rglob_py (target_dir : pth) : M (list (list string)) :=
  w ← get_world;
  let t := resolve w target_dir in
  mret (drop (List.length t) <$>
        List.filter
          (λ k, bool_decide (t `prefix_of` k) && negb (bool_decide (k = t))
                && endswith ".py" (List.last k ""))
          (map_to_list (w_fs w)).*1).

(** The two sets of the source are lists without duplicates here; Python
    leaves the order of [list(alldirs)] open. *)
Definition find_python_directories (target_dir : pth) : M (list pth) :=
  found ← rglob_py target_dir;
  let pydirs := remove_dups ((λ k, removelast k) <$> found) in
  let alldirs := remove_dups (concat (prefixes <$> pydirs)) in
  mret (extend target_dir <$> alldirs).

Definition find_packages : M (list string) :=
  w ← get_world; mret (env_find_packages E (w_cwd w) (w_fs w)).

Definition setup (pkg version : string) (packages : list string) : M unit :=
  w ← get_world;
  emit (Setup pkg version packages);;
  let r := env_setup E pkg version packages (w_cwd w) (w_fs w) in
  set_fs r.2;;
  match r.1 with
  | None => mret tt
  | Some e => raise e
  end.

(** The output of [setup], which the source captures to log it, is not
    modelled. *)
Definition install_src (version : string) (target_dir : pth) : M unit :=
  let root_dir := parent target_dir in
  let examples_dir := root_dir // INSTALL_PKG in
  ex ← path_exists examples_dir;
  when ex
    (raise (InstallError ("package directory " +:+ str_path examples_dir
                            +:+ " already exists")));;
  saved_args ← get_argv;
  set_argv ["setup.py"; "install"];;
  found ← find_python_directories target_dir;
  let pydirs := found ++ [target_dir] in
  for_each pydirs (λ d, write_to Touch (d // "__init__.py") "");;
  os_rename target_dir examples_dir;;
  let build_dir := root_dir // "build" in
  bex ← path_exists build_dir;
  moved_build_dir ←
    (if bex : bool then
       let moved := str_path build_dir +:+ "." +:+ env_uuid1 E in
       os_rename (Path (str_path build_dir)) (Path moved);;
       mret (Some moved)
     else mret None : M (option string));
  chdir root_dir;;
  found_packages ← find_packages;
  let packages := List.filter (String.prefix INSTALL_PKG) found_packages in
  setup INSTALL_PKG version packages;;
  os_rename examples_dir target_dir;;
  for_each pydirs (λ d, unlink (d // "__init__.py"));;
  rmtree (Path (str_path build_dir));;
  match moved_build_dir with
  | Some moved => os_rename (Path moved) (Path (str_path build_dir))
  | None => mret tt
  end;;
  set_argv saved_args;;
  chdir (Path ".").

Definition get_examples (directory : string)
    (no_install list_releases no_download : bool) (version : string)
  : M unit :=
  when list_releases
    (releases ← get_releases;
     print_releases releases;;
     sys_exit 0);;
  let target_dir := Path directory in
  (if no_download then mret tt
   else
     echo "Downloading...";;
     releases ← get_releases;
     download_examples releases target_dir version;;
     full_dir ← realpath target_dir;
     echo ("Downloaded examples to directory '" +:+ full_dir +:+ "'"));;
  when (negb no_install)
    (echo "Installing...";;
     try_except (install_src version target_dir)
       (λ e, match e with
             | InstallError err =>
                 Some (echo ("Install error: " +:+ err);; sys_exit (-1))
             | _ => None
             end);;
     echo ("Installed examples in package " +:+ INSTALL_PKG)).

End Commands.

(** ** Vocabulary of the statements about the order of the steps *)

(** The effects that make up a download: network requests, the temporary
    directory, the archive and its extraction. *)
Definition is_download_event (e : event) : bool :=
  match e with
  | HttpGet _ | MkTemp _ | RmTemp _ | WriteFile _ | ExtractAll _ => true
  | _ => false
  end.


Definition releases_url : string :=
  GITHUB_API +:+ "/repos/" +:+ REPO_ORG +:+ "/" +:+ REPO_NAME +:+ "/releases".

(** The effects of a [download_contents] that returns, in order: the GET of
    the archive, the temporary directory, the zip file written, its
    extraction, the [REPO_DIR] subdirectory moved to the target, the
    temporary directory removed. *)
Definition download_trace (version : string) (tmp target : list string)
  : list event :=
  [ HttpGet (archive_file_url version REPO_ORG REPO_NAME);
    MkTemp tmp;
    WriteFile (tmp ++ ["examples.zip"]);
    ExtractAll tmp;
    Rename (parts (Abs tmp // (REPO_NAME +:+ "-" +:+ version) // REPO_DIR))
           target;
    RmTemp tmp ].

Definition cannot_download (target_dir : pth) : string :=
  "Cannot download: target directory '" +:+ str_path target_dir
     +:+ "' already exists.".

(** Whatever [m] does, it only appends events that satisfy [P]. *)
Definition emits {A} (P : event → Prop) (m : M A) : Prop :=
  ∀ w, ∃ t, w_trace (m w).2 = w_trace w ++ t ∧ Forall P t.

(** [m] returns, and all it does is print. *)
Definition only_prints (m : M unit) : Prop :=
  ∀ w, ∃ out, m w = (Ret tt, World (w_fs w) (w_cwd w) (w_argv w)
                               (w_trace w ++ (Echo <$> out))).

(** The tuple [get_releases] makes of an entry of the JSON list. *)
Definition release_of (r : release_obj) : release :=
  (rel_published_at r, rel_tag_name r, rel_name r).

(** The order of the dates: Python's [<=] on [str]. *)
Definition date_le (a b : release) : Prop :=
  String.leb (rel_date a) (rel_date b) = true.

(** ** A concrete environment

    Two releases are published; the archive of 1.5.0 can be fetched, the one
    of 1.6.0 answers 404. The current directory is [/home]. *)

Definition demo_members : list (list string * node) :=
  [ (["examples-pse-1.5.0"], Dir);
    (["examples-pse-1.5.0"; "src"], Dir);
    (["examples-pse-1.5.0"; "src"; "a.py"], File "print(1)");
    (["examples-pse-1.5.0"; "src"; "sub"], Dir);
    (["examples-pse-1.5.0"; "src"; "sub"; "b.py"], File "print(2)") ].

Definition demo_env : env := {|
  PKG_VERSION := "1.5.0";
  env_get := λ url,
    if String.eqb url (archive_file_url "1.5.0" REPO_ORG REPO_NAME)
    then {| status_code := 200; content := "PK-1.5.0" |}
    else if String.eqb url releases_url
    then {| status_code := 200; content := "[...]" |}
    else {| status_code := 404; content := "Not Found" |};
  env_json := λ _,
    [ {| rel_published_at := "2020-06-01T00:00:00Z"; rel_tag_name := "1.6.0";
         rel_name := "June release"; rel_prerelease := false |};
      {| rel_published_at := "2020-03-01T00:00:00Z"; rel_tag_name := "1.5.0";
         rel_name := "March release"; rel_prerelease := false |} ];
  env_unzip := λ data,
    if String.eqb data "PK-1.5.0" then Some demo_members else None;
  env_tmpdir := ["tmp"; "tmpq1w2e3"];
  env_uuid1 := "0f1e2d3c";
  env_find_packages := λ _ _, ["idaes_examples"; "idaes_examples.sub"; "misc"];
  env_setup := λ _ _ _ cwd fs, (None, <[cwd ++ ["build"] := Dir]> fs)
|}.

Definition demo_fs : gmap (list string) node :=
  <[ ["tmp"] := Dir ]> (<[ ["home"] := Dir ]> ∅).

Definition demo_world : world :=
  World demo_fs ["home"] ["idaes"; "get-examples"] [].

Definition demo_releases : list release :=
  [ ("2020-03-01T00:00:00Z", "1.5.0", "March release");
    ("2020-06-01T00:00:00Z", "1.6.0", "June release") ].

End Examples.


Module Ideal.

(** ** Expressions

    The methods of the equation of state do not compute numbers: they build
    the symbolic expressions of the modelling framework from the variables
    of a state block. [Sym] stands for a named variable or parameter. *)

Inductive expr :=
| Num (q : Q)
| Sym (s : string)
| Add (a b : expr)
| Sub (a b : expr)
| Mul (a b : expr)
| Div (a b : expr).

(** The value of an expression when each symbol has a value. *)
Fixpoint eval (v : string → Q) (e : expr) : Q :=
  match e with
  | Num q => q
  | Sym s => v s
  | Add a b => eval v a + eval v b
  | Sub a b => eval v a - eval v b
  | Mul a b => eval v a * eval v b
  | Div a b => eval v a / eval v b
  end.

(** Python's [sum] over a generator: it starts from the integer 0 and adds
    the terms from left to right. *)
Definition py_sum (terms : list expr) : expr :=
  fold_left Add terms (Num 0).

(** [const.gas_constant], of [idaes.core.util.constants]. *)
Definition gas_constant : expr := Sym "gas_constant".

(** ** Phases, components and state blocks *)

(** A phase object answers two questions. The answers are independent:
    nothing in the methods below assumes that a phase is of one kind only. *)
Record PhaseObj := {
  is_vapor_phase : bool;
  is_liquid_phase : bool
}.

Inductive exn :=
| PropertyNotSupportedError (msg : string).

Inductive result (A : Type) :=
| Ret (a : A)
| Raise (e : exn).
Arguments Ret {A} a.
Arguments Raise {A} e.

Definition _invalid_phase_msg (name phase : string) : string :=
  name +:+ " received unrecognised phase name " +:+ phase
    +:+ ". Ideal property libray only supports Vap and Liq phases.".

Section WithComponents.

(** The type of the component objects of the property package. *)
Context {CompObj : Type}.

(** What the methods read from the state block [b]. [b_cobj j] is
    [cobj(b, j)], the component object of [j], and [b_get_method name j] is
    [get_method(b, name, j)], the property method configured for component
    [j]; it is called with the block, the component object and the
    temperature, and the block is [b] itself. *)
Record StateBlock := {
  b_name : string;
  b_get_phase : string → PhaseObj;
  b_pressure : expr;
  b_temperature : expr;
  b_components_in_phase : string → list string;
  b_mole_frac_phase_comp : string → string → expr;
  b_dens_mol_phase : string → expr;
  b_mw_phase : string → expr;
  b_enth_mol_phase_comp : string → string → expr;
  b_entr_mol_phase_comp : string → string → expr;
  b_gibbs_mol_phase_comp : string → string → expr;
  b_cobj : string → CompObj;
  b_get_method : string → string → CompObj → expr → expr
}.

Definition cobj (b : StateBlock) (j : string) : CompObj := b_cobj b j.

Definition _fug_phase_comp (b : StateBlock) (p j : string) : result expr :=
  let pobj := b_get_phase b p in
  if is_vapor_phase pobj then Ret (b_pressure b)
  else if is_liquid_phase pobj then
    Ret (b_get_method b "pressure_sat_comp" j (cobj b j) (b_temperature b))
  else Raise (PropertyNotSupportedError (_invalid_phase_msg (b_name b) p)).

(** ** The methods of class [Ideal] *)

Definition common (b : StateBlock) (pobj : PhaseObj) : unit := tt.

Definition build_parameters (b : StateBlock) : unit := tt.

Definition compress_fact_phase (b : StateBlock) (p : string) : result expr :=
  let pobj := b_get_phase b p in
  if is_vapor_phase pobj || is_liquid_phase pobj then Ret (Num 1)
  else Raise (PropertyNotSupportedError (_invalid_phase_msg (b_name b) p)).

Definition dens_mass_phase (b : StateBlock) (p : string) : result expr :=
  Ret (Mul (b_dens_mol_phase b p) (b_mw_phase b p)).

Definition dens_mol_phase (b : StateBlock) (p : string) : result expr :=
  let pobj := b_get_phase b p in
  if is_vapor_phase pobj then
    Ret (Div (b_pressure b) (Mul gas_constant (b_temperature b)))
  else if is_liquid_phase pobj then
    Ret (py_sum
           ((λ j, Mul (b_mole_frac_phase_comp b p j)
                      (b_get_method b "dens_mol_liq_comp" j (cobj b j)
                         (b_temperature b)))
            <$> b_components_in_phase b p))
  else Raise (PropertyNotSupportedError (_invalid_phase_msg (b_name b) p)).

Definition enth_mol_phase (b : StateBlock) (p : string) : result expr :=
  Ret (py_sum
         ((λ j, Mul (b_mole_frac_phase_comp b p j)
                    (b_enth_mol_phase_comp b p j))
          <$> b_components_in_phase b p)).

Definition enth_mol_phase_comp (b : StateBlock) (p j : string)
  : result expr :=
  let pobj := b_get_phase b p in
  if is_vapor_phase pobj then
    Ret (b_get_method b "enth_mol_ig_comp" j (cobj b j) (b_temperature b))
  else if is_liquid_phase pobj then
    Ret (b_get_method b "enth_mol_liq_comp" j (cobj b j) (b_temperature b))
  else Raise (PropertyNotSupportedError (_invalid_phase_msg (b_name b) p)).

Definition entr_mol_phase (b : StateBlock) (p : string) : result expr :=
  Ret (py_sum
         ((λ j, Mul (b_mole_frac_phase_comp b p j)
                    (b_entr_mol_phase_comp b p j))
          <$> b_components_in_phase b p)).

Definition entr_mol_phase_comp (b : StateBlock) (p j : string)
  : result expr :=
  let pobj := b_get_phase b p in
  if is_vapor_phase pobj then
    Ret (b_get_method b "entr_mol_ig_comp" j (cobj b j) (b_temperature b))
  else if is_liquid_phase pobj then
    Ret (b_get_method b "entr_mol_liq_comp" j (cobj b j) (b_temperature b))
  else Raise (PropertyNotSupportedError (_invalid_phase_msg (b_name b) p)).

Definition fug_phase_comp (b : StateBlock) (p j : string) : result expr :=
  _fug_phase_comp b p j.

Definition fug_phase_comp_eq (b : StateBlock) (p j : string)
    (pp : string * string) : result expr :=
  _fug_phase_comp b p j.

Definition fug_coeff_phase_comp (b : StateBlock) (p j : string)
  : result expr :=
  let pobj := b_get_phase b p in
  if negb (is_vapor_phase pobj || is_liquid_phase pobj) then
    Raise (PropertyNotSupportedError (_invalid_phase_msg (b_name b) p))
  else Ret (Num 1).

Definition fug_coeff_phase_comp_eq (b : StateBlock) (p j : string)
    (pp : string * string) : result expr :=
  let pobj := b_get_phase b p in
  if negb (is_vapor_phase pobj || is_liquid_phase pobj) then
    Raise (PropertyNotSupportedError (_invalid_phase_msg (b_name b) p))
  else Ret (Num 1).

Definition fug_phase_comp_Tbub (b : StateBlock) (p j : string)
    (pp : string * string) : result expr :=
  _fug_phase_comp b p j.

Definition fug_phase_comp_Tdew (b : StateBlock) (p j : string)
    (pp : string * string) : result expr :=
  _fug_phase_comp b p j.

Definition fug_phase_comp_Pbub (b : StateBlock) (p j : string)
    (pp : string * string) : result expr :=
  _fug_phase_comp b p j.

Definition fug_phase_comp_Pdew (b : StateBlock) (p j : string)
    (pp : string * string) : result expr :=
  _fug_phase_comp b p j.

Definition gibbs_mol_phase (b : StateBlock) (p : string) : result expr :=
  Ret (py_sum
         ((λ j, Mul (b_mole_frac_phase_comp b p j)
                    (b_gibbs_mol_phase_comp b p j))
          <$> b_components_in_phase b p)).

Definition gibbs_mol_phase_comp (b : StateBlock) (p j : string)
  : result expr :=
  Ret (Sub (b_enth_mol_phase_comp b p j)
           (Mul (b_entr_mol_phase_comp b p j) (b_temperature b))).

(** ** Vocabulary of the statements *)

(** The methods that ask the phase for its kind. *)
Definition dispatching_methods (b : StateBlock) (p j : string)
    (pp : string * string) : list (result expr) :=
  [ compress_fact_phase b p;
    dens_mol_phase b p;
    enth_mol_phase_comp b p j;
    entr_mol_phase_comp b p j;
    fug_coeff_phase_comp b p j;
    fug_coeff_phase_comp_eq b p j pp;
    fug_phase_comp b p j;
    fug_phase_comp_eq b p j pp;
    fug_phase_comp_Tbub b p j pp;
    fug_phase_comp_Tdew b p j pp;
    fug_phase_comp_Pbub b p j pp;
    fug_phase_comp_Pdew b p j pp ].

(** The methods that combine properties of the block. *)
Definition combining_methods (b : StateBlock) (p j : string)
  : list (result expr) :=
  [ dens_mass_phase b p;
    enth_mol_phase b p;
    entr_mol_phase b p;
    gibbs_mol_phase b p;
    gibbs_mol_phase_comp b p j ].

(** The density of an ideal gas: pressure over gas constant times
    temperature. *)
Definition ideal_gas_dens_mol (b : StateBlock) : expr :=
  Div (b_pressure b) (Mul gas_constant (b_temperature b)).

(** The liquid molar density of component [j] at the temperature of the
    block. *)
Definition dens_mol_liq_comp (b : StateBlock) (j : string) : expr :=
  b_get_method b "dens_mol_liq_comp" j (cobj b j) (b_temperature b).

(** The density of an ideal liquid mixture: the sum over the components in
    the phase of mole fraction times liquid molar density. *)
Definition ideal_liquid_dens_mol (b : StateBlock) (p : string) : expr :=
  py_sum ((λ j, Mul (b_mole_frac_phase_comp b p j) (dens_mol_liq_comp b j))
          <$> b_components_in_phase b p).

End WithComponents.

Arguments StateBlock : clear implicits.

(** ** The sums of the specification

    The mole-fraction-weighted sum of a property over a list of components,
    on values. *)
Fixpoint weighted_sum (x y : string → Q) (js : list string) : Q :=
  match js with
  | [] => 0
  | j :: js' => x j * y j + weighted_sum x y js'
  end.

(** ** A concrete state block

    Water and ethanol in four phases: a vapour, a liquid, a solid, and a
    phase declared without a kind, which answers yes to both questions. *)

Definition demo_phase (p : string) : PhaseObj :=
  if String.eqb p "Vap" then {| is_vapor_phase := true; is_liquid_phase := false |}
  else if String.eqb p "Liq" then {| is_vapor_phase := false; is_liquid_phase := true |}
  else if String.eqb p "Sol" then {| is_vapor_phase := false; is_liquid_phase := false |}
  else {| is_vapor_phase := true; is_liquid_phase := true |}.

Definition indexed (base p j : string) : expr :=
  Sym (base +:+ "[" +:+ p +:+ "," +:+ j +:+ "]").

Definition demo_block : StateBlock string := {|
  b_name := "fs.state";
  b_get_phase := demo_phase;
  b_pressure := Sym "pressure";
  b_temperature := Sym "temperature";
  b_components_in_phase := λ _, ["H2O"; "EtOH"];
  b_mole_frac_phase_comp := indexed "mole_frac_phase_comp";
  b_dens_mol_phase := λ p, Sym ("dens_mol_phase[" +:+ p +:+ "]");
  b_mw_phase := λ p, Sym ("mw_phase[" +:+ p +:+ "]");
  b_enth_mol_phase_comp := indexed "enth_mol_phase_comp";
  b_entr_mol_phase_comp := indexed "entr_mol_phase_comp";
  b_gibbs_mol_phase_comp := indexed "gibbs_mol_phase_comp";
  b_cobj := λ j, j;
  b_get_method := λ name j _ T, Mul (Sym (name +:+ "." +:+ j)) T
|}.

(** Values for the symbols of [demo_block]: 101325 Pa, 300 K, an equimolar
    mixture, liquid densities of 55000 and 17000 mol/m3 at 1 K. *)
Definition demo_values (s : string) : Q :=
  if String.eqb s "pressure" then 101325
  else if String.eqb s "temperature" then 300
  else if String.eqb s "gas_constant" then 8314 # 1000
  else if String.eqb s "dens_mol_liq_comp.H2O" then 55000
  else if String.eqb s "dens_mol_liq_comp.EtOH" then 17000
  else 1 # 2.

End Ideal.

Module VC.
(** [VariableCategory]: the labels of the variable partition. *)
Inductive t :=
| DIFFERENTIAL
| DERIVATIVE
| ALGEBRAIC
| INPUT
| DISTURBANCE
| FIXED
| UNUSED.

Global Instance vc_eq_dec : EqDecision t.
Proof. solve_decision. Defined.

Definition vc_to_nat (c : t) : nat :=
  match c with
  | DIFFERENTIAL => 0 | DERIVATIVE => 1 | ALGEBRAIC => 2 | INPUT => 3
  | DISTURBANCE => 4 | FIXED => 5 | UNUSED => 6
  end.

Definition vc_of_nat (n : nat) : t :=
  match n with
  | 0 => DIFFERENTIAL | 1 => DERIVATIVE | 2 => ALGEBRAIC | 3 => INPUT
  | 4 => DISTURBANCE | 5 => FIXED | _ => UNUSED
  end.

Global Instance vc_countable : Countable t.
Proof. apply (inj_countable' vc_to_nat vc_of_nat). by intros []. Defined.

Definition all : list t :=
  [DIFFERENTIAL; DERIVATIVE; ALGEBRAIC; INPUT; DISTURBANCE; FIXED; UNUSED].
End VC.

Module CC.
(** [ConstraintCategory]: the labels of the constraint partition. *)
Inductive t :=
| DIFFERENTIAL
| DISCRETIZATION
| ALGEBRAIC
| UNUSED.

Global Instance cc_eq_dec : EqDecision t.
Proof. solve_decision. Defined.

Definition cc_to_nat (c : t) : nat :=
  match c with
  | DIFFERENTIAL => 0 | DISCRETIZATION => 1 | ALGEBRAIC => 2 | UNUSED => 3
  end.

Definition cc_of_nat (n : nat) : t :=
  match n with
  | 0 => DIFFERENTIAL | 1 => DISCRETIZATION | 2 => ALGEBRAIC | _ => UNUSED
  end.

Global Instance cc_countable : Countable t.
Proof. apply (inj_countable' cc_to_nat cc_of_nat). by intros []. Defined.

Definition all : list t := [DIFFERENTIAL; DISCRETIZATION; ALGEBRAIC; UNUSED].
End CC.

Module Categorize.

(** ** The model handed to the categoriser *)

(** Modelled from the spec: the model of the host framework, as far as the
    categoriser reads it. Time-indexed variables and constraints are known
    by a number, the identity of their data object at the representative
    time point; every field below is read at that time point. The first two
    fields are the state of the model that changes at run time ([fix],
    [unfix], [activate], [deactivate]); the other three are its
    structure. *)
Record DaeModel := {
  (** [var[t1].fixed] *)
  var_fixed : nat → bool;
  (** [con[t1].active] *)
  con_active : nat → bool;
  (** the variables in the body of [con[t1]] *)
  con_vars : nat → list nat;
  (** the state variable of a derivative variable; [None] for the others *)
  state_var : nat → option nat;
  (** the discretization equation the model holds for a derivative
      variable; [None] before the model is discretized *)
  disc_eq : nat → option nat
}.

Inductive exn :=
| TypeError.

Inductive result (A : Type) :=
| Ok (a : A)
| Raise (e : exn).
Arguments Ok {A} a.
Arguments Raise {A} e.

(** A derivative variable with its differential variable and its
    discretization equation. *)
Record deriv_info := {
  di_deriv : nat;
  di_state : nat;
  di_disc : nat
}.

(** Modelled from the spec: the search for derivative variables inside
    [categorize_dae_variables_and_constraints]. It returns the derivative
    variables among [todo], each with its differential variable and its
    discretization equation. The discretization equation of every
    derivative variable found is accessed, which fails when the model has
    none. A pair is kept when the differential variable is free too and the
    discretization equation is an active supplied constraint. *)
Fixpoint find_derivatives (m : DaeModel) (free active_cons : list nat)
    (todo : list nat) : result (list deriv_info) :=
  match todo with
  | [] => Ok []
  | x :: todo' =>
      match state_var m x with
      | None => find_derivatives m free active_cons todo'
      | Some s =>
          match disc_eq m x with
          | None => Raise TypeError
          | Some c =>
              match find_derivatives m free active_cons todo' with
              | Raise e => Raise e
              | Ok rest =>
                  if bool_decide (s ∈ free) && bool_decide (c ∈ active_cons)
                  then Ok ({| di_deriv := x; di_state := s; di_disc := c |}
                           :: rest)
                  else Ok rest
              end
          end
      end
  end.

(** Modelled from the spec: the supplied variables that are neither inputs
    nor disturbances. *)
Definition candidate_vars (dae_vars input_vars disturbance_vars : list nat)
  : list nat :=
  filter (λ x, (x ∉ input_vars) ∧ (x ∉ disturbance_vars))
    (remove_dups dae_vars).

(** Modelled from the spec: the supplied constraints that are active. *)
Definition active_constraints (m : DaeModel) (dae_cons : list nat)
  : list nat :=
  filter (λ c, con_active m c = true) (remove_dups dae_cons).

(** Modelled from the spec: [x] occurs in an active supplied constraint. *)
Definition used_in (m : DaeModel) (active_cons : list nat) (x : nat) : Prop :=
  Exists (λ c, x ∈ con_vars m c) active_cons.

Global Instance used_in_dec m active_cons x : Decision (used_in m active_cons x).
Proof. unfold used_in. apply _. Defined.

(** Modelled from the spec: the variables of the square problem, which are
    supplied, neither input nor disturbance, not fixed, and occur in an
    active supplied constraint. *)
Definition free_vars (m : DaeModel)
    (dae_vars dae_cons input_vars disturbance_vars : list nat) : list nat :=
  filter (λ x, var_fixed m x = false
               ∧ used_in m (active_constraints m dae_cons) x)
    (candidate_vars dae_vars input_vars disturbance_vars).

(** Modelled from the spec: [categorize_dae_variables_and_constraints] of
    [idaes/apps/caprese/categorize.py], which is not among the sources; only
    its test [test_categorize.py] is. The specification gives the labels of
    the two partitions, asks that every variable found at the representative
    time point be in exactly one category, that a derivative variable be
    DERIVATIVE only if its differential variable is not fixed and its
    discretization equation can be found, and that a derivative or
    differential variable whose partner is fixed be ALGEBRAIC. The test
    fixes the rest: looking for the discretization equation of a derivative
    variable of an undiscretized model is a [TypeError]; an input is INPUT
    and its derivative ALGEBRAIC; with a fixed variable, every category but
    ALGEBRAIC and UNUSED is empty, so fixed variables and deactivated
    constraints are UNUSED and FIXED stays empty. Among the variables of
    the square problem a derivative variable is DERIVATIVE or ALGEBRAIC, and
    any other variable DIFFERENTIAL or ALGEBRAIC. *)
Definition categorize_dae_variables_and_constraints (m : DaeModel)
    (dae_vars dae_cons input_vars disturbance_vars : list nat)
  : result (gmap VC.t (list nat) * gmap CC.t (list nat)) :=
  let vars := remove_dups dae_vars in
  let cons := remove_dups dae_cons in
  let inputs := filter (λ x, x ∈ input_vars) vars in
  let disturbances :=
    filter (λ x, (x ∉ input_vars) ∧ x ∈ disturbance_vars) vars in
  let candidates := candidate_vars dae_vars input_vars disturbance_vars in
  let active_cons := active_constraints m dae_cons in
  let unused_cons := filter (λ c, con_active m c ≠ true) cons in
  let free := free_vars m dae_vars dae_cons input_vars disturbance_vars in
  let unused_vars :=
    filter (λ x, ¬ (var_fixed m x = false ∧ used_in m active_cons x))
      candidates in
  match find_derivatives m free active_cons free with
  | Raise e => Raise e
  | Ok found =>
      let derivs := di_deriv <$> found in
      let states := di_state <$> found in
      let discs := di_disc <$> found in
      let derivative_vars := filter (λ x, x ∈ derivs) free in
      let differential_vars :=
        filter (λ x, state_var m x = None ∧ x ∈ states) free in
      let algebraic_vars :=
        filter (λ x, (x ∉ derivs) ∧ ¬ (state_var m x = None ∧ x ∈ states))
          free in
      let discretization_cons := filter (λ c, c ∈ discs) active_cons in
      let differential_cons :=
        filter (λ c, (c ∉ discs) ∧ Exists (λ d, d ∈ con_vars m c) derivs)
          active_cons in
      let algebraic_cons :=
        filter (λ c, (c ∉ discs) ∧ ¬ Exists (λ d, d ∈ con_vars m c) derivs)
          active_cons in
      Ok (list_to_map
            [ (VC.DIFFERENTIAL, differential_vars);
              (VC.DERIVATIVE, derivative_vars);
              (VC.ALGEBRAIC, algebraic_vars);
              (VC.INPUT, inputs);
              (VC.DISTURBANCE, disturbances);
              (VC.FIXED, []);
              (VC.UNUSED, unused_vars) ],
          list_to_map
            [ (CC.DIFFERENTIAL, differential_cons);
              (CC.DISCRETIZATION, discretization_cons);
              (CC.ALGEBRAIC, algebraic_cons);
              (CC.UNUSED, unused_cons) ])
  end.

(** The variables a partition files under a label. *)
Definition members {K} `{Countable K} (part : gmap K (list nat)) (c : K)
  : list nat :=
  default [] (part !! c).

(** ** The models of the tests

    [test_categorize_deriv]: a variable [v] (0), its derivative [dv] (1),
    the differential equation [dv == -v**2] (10) and, once the model is
    discretized, the discretization equation [dv_disc_eq] (11). *)

Definition v : nat := 0.
Definition dv : nat := 1.
Definition diff_eqn : nat := 10.
Definition dv_disc_eq : nat := 11.

Definition deriv_model (discretized : bool) (fixed_vars inactive : list nat)
  : DaeModel := {|
  var_fixed := λ x, bool_decide (x ∈ fixed_vars);
  con_active := λ c, negb (bool_decide (c ∈ inactive));
  con_vars := λ c, if bool_decide (c = diff_eqn) then [dv; v]
                   else if bool_decide (c = dv_disc_eq) then [dv; v]
                   else [];
  state_var := λ x, if bool_decide (x = dv) then Some v else None;
  disc_eq := λ x, if discretized && bool_decide (x = dv)
                  then Some dv_disc_eq else None
|}.

(** [test_categorize_simple_model]: the variables and constraints the test
    names, for the components A and B. The model itself, [make_model], is
    not among the sources; the bodies of its constraints are taken to be a
    material balance [dcdt == flow_in*conc_in - flow_out*conc + rate], a
    rate law in the concentration, [flow_in == flow_out] and the
    discretization equations. *)
Definition conc (j : nat) : nat := 20 + j.
Definition dcdt (j : nat) : nat := 22 + j.
Definition rate (j : nat) : nat := 24 + j.
Definition flow_out : nat := 26.
Definition flow_in : nat := 27.
Definition conc_in (j : nat) : nat := 28 + j.
Definition material_balance (j : nat) : nat := 30 + j.
Definition rate_eqn (j : nat) : nat := 32 + j.
Definition flow_eqn : nat := 34.
Definition dcdt_disc_eq (j : nat) : nat := 35 + j.

Definition simple_model : DaeModel := {|
  var_fixed := λ _, false;
  con_active := λ _, true;
  con_vars := λ c,
    if bool_decide (c = material_balance 0 ∨ c = material_balance 1) then
      let j := c - 30 in
      [dcdt j; flow_in; conc_in j; flow_out; conc j; rate j]
    else if bool_decide (c = rate_eqn 0 ∨ c = rate_eqn 1) then
      let j := c - 32 in [rate j; conc j]
    else if bool_decide (c = flow_eqn) then [flow_in; flow_out]
    else if bool_decide (c = dcdt_disc_eq 0 ∨ c = dcdt_disc_eq 1) then
      let j := c - 35 in [dcdt j; conc j]
    else [];
  state_var := λ x,
    if bool_decide (x = dcdt 0 ∨ x = dcdt 1) then Some (conc (x - 22))
    else None;
  disc_eq := λ x,
    if bool_decide (x = dcdt 0 ∨ x = dcdt 1) then Some (dcdt_disc_eq (x - 22))
    else None
|}.

(** The list a result files under a label; [None] when the call raised. *)
Definition vars_of (r : result (gmap VC.t (list nat) * gmap CC.t (list nat)))
    (c : VC.t) : option (list nat) :=
  match r with
  | Ok (vp, _) => vp !! c
  | Raise _ => None
  end.

Definition cons_of (r : result (gmap VC.t (list nat) * gmap CC.t (list nat)))
    (c : CC.t) : option (list nat) :=
  match r with
  | Ok (_, cp) => cp !! c
  | Raise _ => None
  end.

(** The partitions [test_categorize_deriv] expects. *)
Definition deriv_var_partition : gmap VC.t (list nat) :=
  list_to_map
    [ (VC.DIFFERENTIAL, [v]); (VC.DERIVATIVE, [dv]); (VC.ALGEBRAIC, []);
      (VC.INPUT, []); (VC.DISTURBANCE, []); (VC.FIXED, []);
      (VC.UNUSED, []) ].

Definition deriv_con_partition : gmap CC.t (list nat) :=
  list_to_map
    [ (CC.DIFFERENTIAL, [diff_eqn]); (CC.DISCRETIZATION, [dv_disc_eq]);
      (CC.ALGEBRAIC, []); (CC.UNUSED, []) ].

(** ** Vocabulary of the statements *)

(** Two models with the same structure and the same active constraints. *)
Definition same_structure (m1 m2 : DaeModel) : Prop :=
  (∀ c, con_active m1 c = con_active m2 c)
  ∧ (∀ c, con_vars m1 c = con_vars m2 c)
  ∧ (∀ x, state_var m1 x = state_var m2 x)
  ∧ (∀ x, disc_eq m1 x = disc_eq m2 x).

(** Two models with the same set of fixed variables. *)
Definition same_fixed (m1 m2 : DaeModel) : Prop :=
  ∀ x, var_fixed m1 x = var_fixed m2 x.

(** ** The state of the model between two calls *)

(** Modelled from the spec: [var.fix()] on the variable [x], as the test
    calls it between two categorisations. Only the fixed flag of [x]
    changes. *)
Definition fix_var (m : DaeModel) (x : nat) : DaeModel := {|
  var_fixed := λ y, if bool_decide (y = x) then true else var_fixed m y;
  con_active := con_active m;
  con_vars := con_vars m;
  state_var := state_var m;
  disc_eq := disc_eq m
|}.

(** Two models that agree on the supplied variables and constraints: on
    the fixed flag, the state variable and the discretization equation of
    every variable of [dae_vars], and on the active flag and the variables
    of every constraint of [dae_cons]. They may differ anywhere else. *)
Definition agree_on (dae_vars dae_cons : list nat) (m1 m2 : DaeModel)
  : Prop :=
  (∀ x, x ∈ dae_vars →
        var_fixed m1 x = var_fixed m2 x
        ∧ state_var m1 x = state_var m2 x
        ∧ disc_eq m1 x = disc_eq m2 x)
  ∧ (∀ c, c ∈ dae_cons →
          con_active m1 c = con_active m2 c
          ∧ con_vars m1 c = con_vars m2 c).

End Categorize.

(* ========================================================================= *)
(** * Vocabulary of the further properties *)

(** ** [idaes get-examples]: the archive, worlds for the installation *)

Module ExamplesVocabulary.
Import Examples.

(** The [REPO_DIR] subdirectory inside the archive of a version, as the
    components below the directory the archive is extracted to. *)
Definition archive_subdir (version : string) : list string :=
  parts (Rel [] // (REPO_NAME +:+ "-" +:+ version) // REPO_DIR).

(** [demo_env] with archives that are not zip files. *)
Definition corrupt_env : env := {|
  PKG_VERSION := PKG_VERSION demo_env;
  env_get := env_get demo_env;
  env_json := env_json demo_env;
  env_unzip := λ _, None;
  env_tmpdir := env_tmpdir demo_env;
  env_uuid1 := env_uuid1 demo_env;
  env_find_packages := env_find_packages demo_env;
  env_setup := env_setup demo_env
|}.

End ExamplesVocabulary.

Module InstallVocabulary.
Import Examples.

(** [m] leaves the current directory and [sys.argv] as they are, whatever
    its outcome. *)
Definition keeps_process {A} (m : M A) : Prop :=
  ∀ w, w_cwd (m w).2 = w_cwd w ∧ w_argv (m w).2 = w_argv w.

(** The message of the [InstallError] of [install_src]. *)
Definition package_exists_message (target_dir : pth) : string :=
  "package directory " +:+ str_path (parent target_dir // INSTALL_PKG)
    +:+ " already exists".

(** A world after a download into [/home/examples], with the process in
    [/tmp]. *)
Definition downloaded_fs : gmap (list string) node :=
  <[ ["home"; "examples"; "sub"; "b.py"] := File "print(2)" ]>
  (<[ ["home"; "examples"; "sub"] := Dir ]>
  (<[ ["home"; "examples"; "a.py"] := File "print(1)" ]>
  (<[ ["home"; "examples"] := Dir ]> demo_fs))).

Definition downloaded_world : world :=
  World downloaded_fs ["tmp"] ["idaes"; "get-examples"] [].

(** A world where the package directory is in the way. *)
Definition package_world : world :=
  World (<[ ["home"; "idaes_examples"] := Dir ]> demo_fs) ["home"]
    ["idaes"; "get-examples"] [].

End InstallVocabulary.

(** ** Ideal equation of state: mixtures *)

Module IdealVocabulary.
Import Ideal.

(** The three methods that mix a property of the components, each with the
    property of the block it reads. *)
Definition mixture_methods {CompObj : Type} (b : StateBlock CompObj)
  : list ((string → result expr) * (string → string → expr)) :=
  [ (enth_mol_phase b, b_enth_mol_phase_comp b);
    (entr_mol_phase b, b_entr_mol_phase_comp b);
    (gibbs_mol_phase b, b_gibbs_mol_phase_comp b) ].

(** The sum of the mole fractions of the components in a phase, on values. *)
Definition mole_frac_sum {CompObj : Type} (b : StateBlock CompObj)
    (p : string) (v : string → Q) : Q :=
  weighted_sum (λ j, eval v (b_mole_frac_phase_comp b p j)) (λ _, 1%Q)
    (b_components_in_phase b p).

(** [demo_block] with the Gibbs energy of a component bound to the
    expression that [gibbs_mol_phase_comp] builds for it, as the property
    framework binds it. *)
Definition bound_block : StateBlock string := {|
  b_name := b_name demo_block;
  b_get_phase := b_get_phase demo_block;
  b_pressure := b_pressure demo_block;
  b_temperature := b_temperature demo_block;
  b_components_in_phase := b_components_in_phase demo_block;
  b_mole_frac_phase_comp := b_mole_frac_phase_comp demo_block;
  b_dens_mol_phase := b_dens_mol_phase demo_block;
  b_mw_phase := b_mw_phase demo_block;
  b_enth_mol_phase_comp := b_enth_mol_phase_comp demo_block;
  b_entr_mol_phase_comp := b_entr_mol_phase_comp demo_block;
  b_gibbs_mol_phase_comp := λ p j,
    Sub (b_enth_mol_phase_comp demo_block p j)
        (Mul (b_entr_mol_phase_comp demo_block p j)
             (b_temperature demo_block));
  b_cobj := b_cobj demo_block;
  b_get_method := b_get_method demo_block
|}.

End IdealVocabulary.

(** ** [idaes get-examples]: the two parts of a run *)

Module OrderVocabulary.
Import Examples.

Section Order.
Variable E : env.








End Order.


End OrderVocabulary.

(* ===================================================================== *)
(** * Part II: theorems *)
(* ===================================================================== *)

Module ExamplesFacts.
Import Examples.

#[local] Arguments fs_exists : simpl never.
#[local] Arguments fs_is_dir : simpl never.
#[local] Arguments fs_move : simpl never.
#[local] Arguments fs_remove : simpl never.
#[local] Arguments fs_unpack : simpl never.
#[local] Arguments resolve : simpl never.
#[local] Arguments archive_file_url : simpl never.
#[local] Arguments str_path : simpl never.
#[local] Arguments joinpath : simpl never.
#[local] Arguments Path : simpl never.

(** Symbolic execution: the monad and the primitives are unfolded, the
    control flow of the command stays. *)
Ltac run :=
  cbv beta iota zeta delta
    [mbind mret M_bind M_ret when raise sys_exit echo emit get_world set_fs
     set_cwd set_argv get_argv path_exists realpath try_except
     requests_get TemporaryDirectory write_to ZipFile extractall os_rename
     rmtree unlink chdir del_tmpdir fst snd] in *.

Ltac world_simpl :=
  cbn [w_trace w_cwd w_fs w_argv with_fs with_event with_cwd with_argv] in *.

Lemma run_bind {A B} (m : M A) (k : A → M B) (w : world) :
  (m ≫= k) w =
  match m w with
  | (Ret a, w') => k a w'
  | (Raise e, w') => (Raise e, w')
  end.
Proof. reflexivity. Qed.

(** ** Effects appended by a computation *)

Section Emits.
Context (P : event → Prop).

Lemma emits_ret {A} (a : A) : emits P (mret a).
Proof. intros w. exists []. by rewrite app_nil_r. Qed.

Lemma emits_raise {A} (e : exn) : emits P (@raise A e).
Proof. intros w. exists []. by rewrite app_nil_r. Qed.

Lemma emits_sys_exit {A} (c : Z) : emits P (@sys_exit A c).
Proof. apply emits_raise. Qed.

Lemma emits_emit (e : event) : P e → emits P (emit e).
Proof. intros He w. exists [e]. split; [done | by constructor]. Qed.

Lemma emits_echo (s : string) : P (Echo s) → emits P (echo s).
Proof. apply emits_emit. Qed.

Lemma emits_get_world : emits P get_world.
Proof. intros w. exists []. by rewrite app_nil_r. Qed.

Lemma emits_set_fs fs : emits P (set_fs fs).
Proof. intros w. exists []. by rewrite app_nil_r. Qed.

Lemma emits_set_cwd k : emits P (set_cwd k).
Proof. intros w. exists []. by rewrite app_nil_r. Qed.

Lemma emits_set_argv a : emits P (set_argv a).
Proof. intros w. exists []. by rewrite app_nil_r. Qed.

Lemma emits_bind {A B} (m : M A) (k : A → M B) :
  emits P m → (∀ a, emits P (k a)) → emits P (m ≫= k).
Proof.
  intros Hm Hk w. rewrite run_bind.
  destruct (Hm w) as (t1 & E1 & F1).
  destruct (m w) as [[a|e] w1]; simpl in *.
  - destruct (Hk a w1) as (t2 & E2 & F2).
    exists (t1 ++ t2). rewrite E2, E1, app_assoc.
    split; [done | by apply Forall_app].
  - by exists t1.
Qed.

Lemma emits_try {A} (m : M A) (h : exn → option (M A)) :
  emits P m → (∀ e k, h e = Some k → emits P k) → emits P (try_except m h).
Proof.
  intros Hm Hh w. unfold try_except.
  destruct (Hm w) as (t1 & E1 & F1).
  destruct (m w) as [[a|e] w1]; simpl in *.
  - by exists t1.
  - destruct (h e) as [k|] eqn:Hk.
    + destruct (Hh e k Hk w1) as (t2 & E2 & F2).
      exists (t1 ++ t2). rewrite E2, E1, app_assoc.
      split; [done | by apply Forall_app].
    + by exists t1.
Qed.

Lemma emits_when (c : bool) (m : M unit) : emits P m → emits P (when c m).
Proof. destruct c; [done | intros _; apply emits_ret]. Qed.

Lemma emits_for_each {A} (l : list A) (f : A → M unit) :
  (∀ a, emits P (f a)) → emits P (for_each l f).
Proof.
  intros Hf. induction l as [|a l IH]; simpl.
  - apply emits_ret.
  - apply emits_bind; [apply Hf | intros _; apply IH].
Qed.

End Emits.

Ltac emits_step :=
  first
    [ apply emits_bind; [|intros ?]
    | apply emits_ret
    | apply emits_raise
    | apply emits_sys_exit
    | apply emits_emit; reflexivity
    | apply emits_echo; reflexivity
    | apply emits_get_world
    | apply emits_set_fs
    | apply emits_set_cwd
    | apply emits_set_argv
    | apply emits_when
    | apply emits_for_each; intros ?
    | apply emits_try; [| intros [] ? ?; simplify_eq]
    | match goal with
      | |- emits _ (if ?b then _ else _) => destruct b
      | |- emits _ (match ?x with _ => _ end) => destruct x
      end ].

Ltac emits_tac := cbv beta zeta; repeat emits_step.

Section Primitives.
Context (P : event → Prop).


Lemma emits_realpath p : emits P (realpath p).
Proof. unfold realpath. emits_tac. Qed.







End Primitives.


(** ** [get_releases] *)

Lemma collect_releases (l : list release_obj) (acc : list release) :
  foldl (λ acc rel,
           if _skip_prereleases && rel_prerelease rel then acc
           else acc ++ [(rel_published_at rel, rel_tag_name rel,
                         rel_name rel)])
        acc l
  = acc ++ (release_of <$> l).
Proof.
  revert acc. induction l as [|r l IH]; intros acc; simpl.
  - by rewrite app_nil_r.
  - rewrite IH, <- app_assoc. reflexivity.
Qed.

Lemma get_releases_run (E : env) (w : world) :
  get_releases E w
  = (Ret (sort_by_date
            (release_of <$> env_json E (content (env_get E releases_url)))),
     with_event w (HttpGet releases_url)).
Proof.
  unfold get_releases. run. rewrite collect_releases. reflexivity.
Qed.

Lemma insert_by_date_perm (x : release) (l : list release) :
  insert_by_date x l ≡ₚ x :: l.
Proof.
  induction l as [|y l IH]; simpl; [done|].
  destruct (String.leb _ _); [done|].
  rewrite IH. apply Permutation_swap.
Qed.

Lemma sort_by_date_perm (l : list release) : sort_by_date l ≡ₚ l.
Proof.
  induction l as [|x l IH]; simpl; [done|].
  rewrite insert_by_date_perm. by f_equiv.
Qed.

Lemma insert_by_date_hd (x a : release) (l : list release) :
  date_le a x → HdRel date_le a l → HdRel date_le a (insert_by_date x l).
Proof.
  intros Hax Hal. destruct l as [|y l]; simpl.
  - by constructor.
  - destruct (String.leb _ _); constructor; [done|].
    by inversion Hal.
Qed.

Lemma insert_by_date_sorted (x : release) (l : list release) :
  Sorted date_le l → Sorted date_le (insert_by_date x l).
Proof.
  induction 1 as [|y l Hs IH Hhd]; simpl.
  - repeat constructor.
  - destruct (String.leb (rel_date x) (rel_date y)) eqn:Hle.
    + constructor; [by constructor | by constructor].
    + constructor; [done|].
      apply insert_by_date_hd; [|done].
      unfold date_le. destruct (String.leb_total (rel_date x) (rel_date y));
        congruence.
Qed.

Lemma sort_by_date_sorted (l : list release) : Sorted date_le (sort_by_date l).
Proof.
  induction l as [|x l IH]; simpl; [constructor|].
  by apply insert_by_date_sorted.
Qed.

Lemma sorted_adjacent (l : list release) (i : nat) (a b : release) :
  Sorted date_le l → l !! i = Some a → l !! S i = Some b → date_le a b.
Proof.
  intros Hs. revert i. induction Hs as [|x l Hs IH Hhd]; intros i Ha Hb.
  - done.
  - destruct i as [|i]; simpl in *.
    + simplify_eq. destruct l; simplify_eq/=. by inversion Hhd.
    + by eapply IH.
Qed.


Lemma echo_run (s : string) (w : world) :
  echo s w = (Ret tt, with_event w (Echo s)).
Proof. reflexivity. Qed.

Lemma only_prints_echo (s : string) : only_prints (echo s).
Proof. intros w. by exists [s]. Qed.

Lemma only_prints_seq (m k : M unit) :
  only_prints m → only_prints k → only_prints (m;; k).
Proof.
  intros Hm Hk w. rewrite run_bind.
  destruct (Hm w) as [o1 ->]. destruct (Hk (World (w_fs w) (w_cwd w) (w_argv w)
    (w_trace w ++ (Echo <$> o1)))) as [o2 ->].
  exists (o1 ++ o2). simpl. by rewrite fmap_app, app_assoc.
Qed.

Lemma only_prints_for_each {A} (l : list A) (f : A → M unit) :
  (∀ a, only_prints (f a)) → only_prints (for_each l f).
Proof.
  intros Hf. induction l as [|a l IH]; simpl.
  - intros w. exists []. simpl. rewrite app_nil_r. by destruct w.
  - by apply only_prints_seq.
Qed.

Lemma print_releases_only_prints (rels : list release) :
  only_prints (print_releases rels).
Proof.
  destruct rels as [|first rels]; unfold print_releases; cbv zeta.
  - apply only_prints_echo.
  - repeat first
      [ apply only_prints_seq
      | apply only_prints_echo
      | apply only_prints_for_each; intros ? ].
Qed.

(** ** The two phases of the command *)






Lemma joinpath_zip (tmp : list string) :
  Abs tmp // "examples.zip" = Abs (tmp ++ ["examples.zip"]).
Proof. reflexivity. Qed.

Lemma joinpath_abs (l : list string) (s : string) :
  ∃ l', Abs l // s = Abs l'.
Proof. unfold joinpath. destruct (Path s); eauto. Qed.

Lemma resolve_subdir (w : world) (l : list string) (a b : string) :
  resolve w (Abs l // a // b) = parts (Abs l // a // b).
Proof.
  destruct (joinpath_abs l a) as [l1 ->].
  by destruct (joinpath_abs l1 b) as [l2 ->].
Qed.

Lemma download_contents_returns (E : env) version target_dir w w' :
  download_contents E version target_dir w = (Ret tt, w') →
  w_trace w' = w_trace w ++
                 download_trace version (env_tmpdir E) (resolve w target_dir)
  ∧ w_cwd w' = w_cwd w.
Proof.
  unfold download_contents, download_trace.
  run. rewrite !joinpath_zip. intros H.
  repeat case_match; simplify_eq.
  rewrite !resolve_subdir.
  destruct target_dir; unfold resolve; world_simpl;
    rewrite <- !app_assoc; done.
Qed.



Lemma get_releases_emits (P : event → Prop) (E : env) :
  P (HttpGet releases_url) → emits P (get_releases E).
Proof.
  intros HP w. rewrite get_releases_run. exists [HttpGet releases_url].
  split; [done | by constructor].
Qed.

Lemma resolve_with_event (w : world) (e : event) (p : pth) :
  resolve (with_event w e) p = resolve w p.
Proof. by destruct p. Qed.

Lemma app_eq_self_nil {A} (l t : list A) : l = l ++ t → t = [].
Proof.
  intros H. apply (app_inv_head l). by rewrite app_nil_r.
Qed.

(** ** Sanity checks on the concrete environment *)

Example demo_get_releases :
  (get_releases demo_env demo_world).1 = Ret demo_releases.
Proof. vm_compute. reflexivity. Qed.

Example demo_list_releases :
  let r := get_examples demo_env "examples" false true false "1.5.0"
             demo_world in
  r.1 = Raise (SystemExit 0)
  ∧ w_trace r.2
    = [ HttpGet releases_url;
        Echo "";
        Echo "Date                  Version  Details      ";
        Echo "--------------------  -------  -------------";
        Echo "2020-03-01T00:00:00Z  1.5.0    March release";
        Echo "2020-06-01T00:00:00Z  1.6.0    June release ";
        Echo "" ].
Proof. cbv zeta. split; vm_compute; reflexivity. Qed.

Example demo_download_and_install :
  let r := get_examples demo_env "examples" false false false "1.5.0"
             demo_world in
  r.1 = Ret tt
  ∧ w_fs r.2
    = <[ ["home"; "examples"; "sub"; "b.py"] := File "print(2)" ]>
      (<[ ["home"; "examples"; "sub"] := Dir ]>
      (<[ ["home"; "examples"; "a.py"] := File "print(1)" ]>
      (<[ ["home"; "examples"] := Dir ]> demo_fs)))
  ∧ w_trace r.2
    = [ Echo "Downloading...";
        HttpGet releases_url;
        HttpGet "https://github.com/idaes/examples-pse/archive/1.5.0.zip";
        MkTemp ["tmp"; "tmpq1w2e3"];
        WriteFile ["tmp"; "tmpq1w2e3"; "examples.zip"];
        ExtractAll ["tmp"; "tmpq1w2e3"];
        Rename ["tmp"; "tmpq1w2e3"; "examples-pse-1.5.0"; "src"]
               ["home"; "examples"];
        RmTemp ["tmp"; "tmpq1w2e3"];
        Echo "Downloaded examples to directory '/home/examples'";
        Echo "Installing...";
        Touch ["home"; "examples"; "sub"; "__init__.py"];
        Touch ["home"; "examples"; "__init__.py"];
        Rename ["home"; "examples"] ["home"; "idaes_examples"];
        Chdir ["home"];
        Setup "idaes_examples" "1.5.0"
              ["idaes_examples"; "idaes_examples.sub"];
        Rename ["home"; "idaes_examples"] ["home"; "examples"];
        Unlink ["home"; "examples"; "sub"; "__init__.py"];
        Unlink ["home"; "examples"; "__init__.py"];
        Rmtree ["home"; "build"];
        Chdir ["home"];
        Echo "Installed examples in package idaes_examples" ].
Proof. cbv zeta. repeat split; vm_compute; reflexivity. Qed.

(** ** [get_releases] is sorted *)

(** C9. [get_releases] returns the (published_at, tag_name, name) tuples of
    the releases the API lists, in ascending order of [published_at]: the
    date of every entry is less than or equal to the date of the entry that
    follows it. *)
Theorem get_releases_sorted (E : env) (w : world) :
  ∃ rels,
    (get_releases E w).1 = Ret rels
    ∧ rels ≡ₚ release_of <$> env_json E (content (env_get E releases_url))
    ∧ Sorted date_le rels
    ∧ ∀ i a b, rels !! i = Some a → rels !! S i = Some b →
               String.leb (rel_date a) (rel_date b) = true.
Proof.
  rewrite get_releases_run. eexists. split; [reflexivity|].
  split; [apply sort_by_date_perm|].
  split; [apply sort_by_date_sorted|].
  intros i a b. apply sorted_adjacent, sort_by_date_sorted.
Qed.

(** ** [download_examples] *)

(** C10. When a release matches the version and the target directory
    exists, [download_examples] prints that it cannot download and exits
    with status -1; it sends no request and the file system is left as it
    was: the run adds one [Echo] to the world and nothing else. *)
Theorem download_examples_target_exists (E : env) (releases : list release)
    (target_dir : pth) (version : string) (w : world) :
  List.find (λ rel, String.eqb version (rel_tag rel)) releases ≠ None →
  fs_exists (w_fs w) (resolve w target_dir) = true →
  download_examples E releases target_dir version w
    = (Raise (SystemExit (-1)),
       with_event w (Echo (cannot_download target_dir)))
  ∧ w_fs (download_examples E releases target_dir version w).2 = w_fs w
  ∧ Forall (λ e, is_download_event e = false)
      [Echo (cannot_download target_dir)].
Proof.
  intros Hm Hex.
  assert (download_examples E releases target_dir version w
          = (Raise (SystemExit (-1)),
             with_event w (Echo (cannot_download target_dir)))) as ->.
  { unfold download_examples.
    rewrite bool_decide_eq_false_2 by exact Hm.
    run. rewrite Hex. reflexivity. }
  split_and!; [done | done | by repeat constructor].
Qed.

Lemma download_examples_target_exists_witness :
  List.find (λ rel, String.eqb "1.5.0" (rel_tag rel)) demo_releases ≠ None
  ∧ fs_exists (w_fs demo_world) (resolve demo_world (Path "/home")) = true
  ∧ download_examples demo_env demo_releases (Path "/home") "1.5.0"
      demo_world
    = (Raise (SystemExit (-1)),
       with_event demo_world
         (Echo "Cannot download: target directory '/home' already exists.")).
Proof.
  split; [discriminate|]. split; [reflexivity|].
  apply (download_examples_target_exists demo_env demo_releases
           (Path "/home") "1.5.0" demo_world); [discriminate | reflexivity].
Defined.

Lemma download_contents_error (E : env) version target_dir w msg w1 :
  download_contents E version target_dir w = (Raise (DownloadError msg), w1) →
  w1 = with_event w (HttpGet (archive_file_url version REPO_ORG REPO_NAME)).
Proof.
  unfold download_contents. run.
  repeat case_match; intros; simplify_eq; reflexivity.
Qed.

(** C8, what the code does. Whenever [download_contents] raises a
    [DownloadError], nothing was written: the target directory does not
    exist. [shutil.rmtree] then raises [FileNotFoundError], so
    [download_examples] ends with that exception and [sys.exit(-1)] is not
    reached. The file system is as it was before the call. *)
Theorem download_error_cleanup_raises (E : env) (releases : list release)
    (target_dir : pth) (version : string) (w w1 : world) (msg : string) :
  List.find (λ rel, String.eqb version (rel_tag rel)) releases ≠ None →
  fs_exists (w_fs w) (resolve w target_dir) = false →
  download_contents E version target_dir w = (Raise (DownloadError msg), w1) →
  (download_examples E releases target_dir version w).1
    = Raise (FileNotFoundError (resolve w target_dir))
  ∧ w_fs (download_examples E releases target_dir version w).2 = w_fs w
  ∧ w_trace (download_examples E releases target_dir version w).2
    = w_trace w ++
      [ HttpGet (archive_file_url version REPO_ORG REPO_NAME);
        Echo ("Download failed: " +:+ msg);
        Rmtree (resolve w target_dir) ].
Proof.
  intros Hm Hex Hd.
  pose proof (download_contents_error _ _ _ _ _ _ Hd) as ->.
  unfold download_examples.
  rewrite bool_decide_eq_false_2 by exact Hm.
  run. rewrite Hex, Hd. world_simpl.
  rewrite !resolve_with_event, Hex. world_simpl.
  rewrite <- !app_assoc. done.
Qed.

Lemma download_error_cleanup_raises_witness :
  (download_examples demo_env demo_releases (Path "examples") "1.6.0"
     demo_world).1
    = Raise (FileNotFoundError ["home"; "examples"])
  ∧ w_fs (download_examples demo_env demo_releases (Path "examples") "1.6.0"
            demo_world).2 = demo_fs
  ∧ w_trace (download_examples demo_env demo_releases (Path "examples")
               "1.6.0" demo_world).2
    = [ HttpGet "https://github.com/idaes/examples-pse/archive/1.6.0.zip";
        Echo "Download failed: file not found";
        Rmtree ["home"; "examples"] ].
Proof.
  apply (download_error_cleanup_raises demo_env demo_releases
           (Path "examples") "1.6.0" demo_world
           (with_event demo_world
              (HttpGet (archive_file_url "1.6.0" REPO_ORG REPO_NAME)))
           "file not found");
    [discriminate | reflexivity | reflexivity].
Defined.

End ExamplesFacts.

Module IdealFacts.
Import Ideal.

Local Open Scope Q_scope.

Lemma eval_fold_left_Add (v : string → Q) (terms : list expr) (acc : expr) :
  eval v (fold_left Add terms acc)
  == eval v acc + fold_right (λ e s, eval v e + s) 0 terms.
Proof.
  revert acc. induction terms as [|e terms IH]; intros acc;
    cbn [fold_left fold_right].
  - ring.
  - rewrite IH. cbn [eval]. ring.
Qed.

(** The expression Python's [sum] builds has the value of the weighted sum. *)
Lemma eval_py_sum_weighted (v : string → Q) (x y : string → expr)
    (js : list string) :
  eval v (py_sum ((λ j, Mul (x j) (y j)) <$> js))
  == weighted_sum (λ j, eval v (x j)) (λ j, eval v (y j)) js.
Proof.
  unfold py_sum. rewrite eval_fold_left_Add. cbn [eval].
  induction js as [|j js IH]; cbn [fmap list_fmap fold_right weighted_sum eval].
  - ring.
  - rewrite <- IH. ring.
Qed.

(** C4. The methods of [Ideal] decide on the kind of the phase. For a phase
    that is a vapour or a liquid every method returns a value, and
    [compress_fact_phase], [fug_coeff_phase_comp] and
    [fug_coeff_phase_comp_eq] return 1. For a phase that is neither, each of
    [compress_fact_phase], [dens_mol_phase], [enth_mol_phase_comp],
    [entr_mol_phase_comp], [fug_coeff_phase_comp], [fug_coeff_phase_comp_eq]
    and the six fugacity methods raises [PropertyNotSupportedError] with the
    message of [_invalid_phase_msg], and nothing else. *)
Theorem ideal_phase_dispatch {CompObj : Type} (b : StateBlock CompObj)
    (p j : string)
    (pp : string * string) :
  if is_vapor_phase (b_get_phase b p) || is_liquid_phase (b_get_phase b p)
  then
    Forall (λ r, ∃ e, r = Ret e)
      (dispatching_methods b p j pp ++ combining_methods b p j)
    ∧ compress_fact_phase b p = Ret (Num 1)
    ∧ fug_coeff_phase_comp b p j = Ret (Num 1)
    ∧ fug_coeff_phase_comp_eq b p j pp = Ret (Num 1)
  else
    Forall (λ r, r = Raise (PropertyNotSupportedError
                              (_invalid_phase_msg (b_name b) p)))
      (dispatching_methods b p j pp).
Proof.
  unfold dispatching_methods, combining_methods, compress_fact_phase,
    dens_mol_phase, enth_mol_phase_comp, entr_mol_phase_comp,
    fug_coeff_phase_comp, fug_coeff_phase_comp_eq, fug_phase_comp,
    fug_phase_comp_eq, fug_phase_comp_Tbub, fug_phase_comp_Tdew,
    fug_phase_comp_Pbub, fug_phase_comp_Pdew, _fug_phase_comp,
    dens_mass_phase, enth_mol_phase, entr_mol_phase, gibbs_mol_phase,
    gibbs_mol_phase_comp.
  cbv zeta.
  destruct (is_vapor_phase (b_get_phase b p)),
           (is_liquid_phase (b_get_phase b p)); simpl;
    repeat first [split | constructor | eexists; reflexivity | reflexivity].
Qed.

(** Sanity checks: the four phases of the concrete block. *)
Example demo_compress_fact :
  compress_fact_phase demo_block "Vap" = Ret (Num 1)
  ∧ compress_fact_phase demo_block "Liq" = Ret (Num 1)
  ∧ compress_fact_phase demo_block "Mix" = Ret (Num 1)
  ∧ compress_fact_phase demo_block "Sol"
    = Raise (PropertyNotSupportedError
        "fs.state received unrecognised phase name Sol. Ideal property libray only supports Vap and Liq phases.").
Proof. repeat split; reflexivity. Qed.

(** C5, as the code has it. For a vapour phase [dens_mol_phase] returns
    pressure divided by (gas constant times temperature). For a liquid phase
    that is not also a vapour phase it returns the sum over the components
    in the phase of mole fraction times the liquid molar density of the
    component at the temperature of the block, and the value of that
    expression is the weighted sum of the values. [dens_mass_phase] returns
    the molar density of the phase times its molecular weight. *)
Theorem ideal_density {CompObj : Type} (b : StateBlock CompObj)
    (p : string) (v : string → Q) :
  (is_vapor_phase (b_get_phase b p) = true →
   dens_mol_phase b p = Ret (ideal_gas_dens_mol b))
  ∧ (is_vapor_phase (b_get_phase b p) = false →
     is_liquid_phase (b_get_phase b p) = true →
     dens_mol_phase b p = Ret (ideal_liquid_dens_mol b p))
  ∧ eval v (ideal_gas_dens_mol b)
    == eval v (b_pressure b)
       / (eval v gas_constant * eval v (b_temperature b))
  ∧ eval v (ideal_liquid_dens_mol b p)
    == weighted_sum (λ j, eval v (b_mole_frac_phase_comp b p j))
         (λ j, eval v (dens_mol_liq_comp b j)) (b_components_in_phase b p)
  ∧ dens_mass_phase b p = Ret (Mul (b_dens_mol_phase b p) (b_mw_phase b p)).
Proof.
  unfold dens_mol_phase. cbv zeta.
  split_and!.
  - by intros ->.
  - by intros -> ->.
  - reflexivity.
  - apply eval_py_sum_weighted.
  - reflexivity.
Qed.

Lemma ideal_density_witness :
  dens_mol_phase demo_block "Vap"
    = Ret (Div (Sym "pressure") (Mul (Sym "gas_constant") (Sym "temperature")))
  ∧ dens_mol_phase demo_block "Liq" = Ret (ideal_liquid_dens_mol demo_block "Liq")
  ∧ eval demo_values (ideal_liquid_dens_mol demo_block "Liq")
    == (1 # 2) * (55000 * 300) + ((1 # 2) * (17000 * 300) + 0).
Proof.
  pose proof (ideal_density demo_block "Vap" demo_values) as (Hv & _).
  pose proof (ideal_density demo_block "Liq" demo_values)
    as (_ & Hl & _ & Hs & _).
  split; [exact (Hv eq_refl)|].
  split; [exact (Hl eq_refl eq_refl)|].
  exact Hs.
Defined.

(** C5, as stated, fails. A phase declared without a kind is a liquid phase
    and a vapour phase at once; [dens_mol_phase] asks for vapour first, so it
    returns the density of the ideal gas, which is not the sum over the
    components, neither as an expression nor by its value. *)
Lemma dens_mol_phase_liquid_counterexample :
  is_liquid_phase (b_get_phase demo_block "Mix") = true
  ∧ dens_mol_phase demo_block "Mix"
    ≠ Ret (ideal_liquid_dens_mol demo_block "Mix")
  ∧ ∀ e, dens_mol_phase demo_block "Mix" = Ret e →
         ¬ eval demo_values e
           == eval demo_values (ideal_liquid_dens_mol demo_block "Mix").
Proof.
  split; [reflexivity|]. split; [discriminate|].
  intros e [= <-] H. vm_compute in H. discriminate H.
Qed.

Example demo_generic_phase_density :
  is_liquid_phase (b_get_phase demo_block "Mix") = true
  ∧ dens_mol_phase demo_block "Mix" = Ret (ideal_gas_dens_mol demo_block)
  ∧ eval demo_values (ideal_gas_dens_mol demo_block) == 101325000 # 2494200
  ∧ eval demo_values (ideal_liquid_dens_mol demo_block "Mix") == 10800000.
Proof. repeat split; vm_compute; reflexivity. Qed.

(** C6. [gibbs_mol_phase_comp] returns enthalpy minus entropy times
    temperature of the component in the phase, and [enth_mol_phase],
    [entr_mol_phase] and [gibbs_mol_phase] return the sum, over the
    components in the phase, of mole fraction times the property of the
    component; the value of each sum is the mole-fraction-weighted sum of
    the values. *)
Theorem ideal_mixture_properties {CompObj : Type} (b : StateBlock CompObj)
    (p j : string) (v : string → Q) :
  gibbs_mol_phase_comp b p j
    = Ret (Sub (b_enth_mol_phase_comp b p j)
               (Mul (b_entr_mol_phase_comp b p j) (b_temperature b)))
  ∧ (∃ e, enth_mol_phase b p = Ret e
          ∧ eval v e
            == weighted_sum (λ j, eval v (b_mole_frac_phase_comp b p j))
                 (λ j, eval v (b_enth_mol_phase_comp b p j))
                 (b_components_in_phase b p))
  ∧ (∃ e, entr_mol_phase b p = Ret e
          ∧ eval v e
            == weighted_sum (λ j, eval v (b_mole_frac_phase_comp b p j))
                 (λ j, eval v (b_entr_mol_phase_comp b p j))
                 (b_components_in_phase b p))
  ∧ (∃ e, gibbs_mol_phase b p = Ret e
          ∧ eval v e
            == weighted_sum (λ j, eval v (b_mole_frac_phase_comp b p j))
                 (λ j, eval v (b_gibbs_mol_phase_comp b p j))
                 (b_components_in_phase b p))
  ∧ (∀ e, gibbs_mol_phase_comp b p j = Ret e →
          eval v e
          == eval v (b_enth_mol_phase_comp b p j)
             - eval v (b_entr_mol_phase_comp b p j) * eval v (b_temperature b)).
Proof.
  split_and!.
  - reflexivity.
  - eexists. split; [reflexivity | apply eval_py_sum_weighted].
  - eexists. split; [reflexivity | apply eval_py_sum_weighted].
  - eexists. split; [reflexivity | apply eval_py_sum_weighted].
  - intros e [= <-]. reflexivity.
Qed.

End IdealFacts.

Module CategorizeFacts.
Import Categorize.

(** ** The tests of [test_categorize.py] *)

Example test_categorize_deriv_undiscretized :
  categorize_dae_variables_and_constraints (deriv_model false [] [])
    [v; dv] [diff_eqn] [] []
  = Raise TypeError.
Proof. vm_compute. reflexivity. Qed.

Example test_categorize_deriv :
  let r := categorize_dae_variables_and_constraints (deriv_model true [] [])
             [v; dv] [diff_eqn; dv_disc_eq] [] [] in
  (vars_of r <$> VC.all)
  = [Some [v]; Some [dv]; Some []; Some []; Some []; Some []; Some []]
  ∧ (cons_of r <$> CC.all)
    = [Some [diff_eqn]; Some [dv_disc_eq]; Some []; Some []].
Proof. split; vm_compute; reflexivity. Qed.

(** [m.v.fix(); m.diff_eqn.deactivate()] *)
Example test_categorize_deriv_fixed_1 :
  let r := categorize_dae_variables_and_constraints
             (deriv_model true [v] [diff_eqn])
             [v; dv] [diff_eqn; dv_disc_eq] [] [] in
  (vars_of r <$> VC.all)
  = [Some []; Some []; Some [dv]; Some []; Some []; Some []; Some [v]]
  ∧ (cons_of r <$> CC.all)
    = [Some []; Some []; Some [dv_disc_eq]; Some [diff_eqn]].
Proof. split; vm_compute; reflexivity. Qed.

(** [m.v.unfix()], [input_vars=[m.v]] *)
Example test_categorize_deriv_fixed_2 :
  let r := categorize_dae_variables_and_constraints
             (deriv_model true [] [diff_eqn])
             [v; dv] [diff_eqn; dv_disc_eq] [v] [] in
  (vars_of r <$> VC.all)
  = [Some []; Some []; Some [dv]; Some [v]; Some []; Some []; Some []]
  ∧ (cons_of r <$> CC.all)
    = [Some []; Some []; Some [dv_disc_eq]; Some [diff_eqn]].
Proof. split; vm_compute; reflexivity. Qed.

(** [dv] fixed, [m.diff_eqn.activate(); m.dv_disc_eq.deactivate()] *)
Example test_categorize_deriv_fixed_3 :
  let r := categorize_dae_variables_and_constraints
             (deriv_model true [dv] [dv_disc_eq])
             [v; dv] [diff_eqn; dv_disc_eq] [] [] in
  (vars_of r <$> VC.all)
  = [Some []; Some []; Some [v]; Some []; Some []; Some []; Some [dv]]
  ∧ (cons_of r <$> CC.all)
    = [Some [] ; Some []; Some [diff_eqn]; Some [dv_disc_eq]].
Proof. split; vm_compute; reflexivity. Qed.


Example test_categorize_simple_model :
  let r := categorize_dae_variables_and_constraints simple_model
             [conc 0; conc 1; dcdt 0; dcdt 1; rate 0; rate 1; flow_out;
              flow_in; conc_in 0; conc_in 1]
             [material_balance 0; material_balance 1; rate_eqn 0; rate_eqn 1;
              flow_eqn; dcdt_disc_eq 0; dcdt_disc_eq 1]
             [flow_in] [conc_in 0; conc_in 1] in
  (vars_of r <$> VC.all)
  = [ Some [conc 0; conc 1]; Some [dcdt 0; dcdt 1];
      Some [rate 0; rate 1; flow_out]; Some [flow_in];
      Some [conc_in 0; conc_in 1]; Some []; Some [] ]
  ∧ (cons_of r <$> CC.all)
    = [ Some [material_balance 0; material_balance 1];
        Some [dcdt_disc_eq 0; dcdt_disc_eq 1];
        Some [rate_eqn 0; rate_eqn 1; flow_eqn]; Some [] ].
Proof. split; vm_compute; reflexivity. Qed.

(** ** What [find_derivatives] keeps *)

Lemma find_derivatives_sound (m : DaeModel) (free active_cons todo : list nat)
    (found : list deriv_info) :
  find_derivatives m free active_cons todo = Ok found →
  ∀ i, i ∈ found →
    di_deriv i ∈ todo
    ∧ state_var m (di_deriv i) = Some (di_state i)
    ∧ disc_eq m (di_deriv i) = Some (di_disc i)
    ∧ di_state i ∈ free
    ∧ di_disc i ∈ active_cons.
Proof.
  revert found. induction todo as [|x todo IH]; intros found Hf i Hi; simpl in Hf.
  - simplify_eq. by apply elem_of_nil in Hi.
  - destruct (state_var m x) as [s|] eqn:Hs.
    + destruct (disc_eq m x) as [c|] eqn:Hc; [|done].
      destruct (find_derivatives m free active_cons todo) as [rest|] eqn:Hr;
        [|done].
      destruct (bool_decide (s ∈ free) && bool_decide (c ∈ active_cons))
        eqn:Hb; simplify_eq.
      * apply andb_true_iff in Hb as [Hb1 Hb2].
        apply bool_decide_eq_true in Hb1, Hb2.
        apply elem_of_cons in Hi as [->|Hi]; simpl.
        { split_and!; try done. by left. }
        destruct (IH _ eq_refl i Hi) as (? & ? & ? & ? & ?).
        split_and!; try done. by right.
      * destruct (IH _ eq_refl i Hi) as (? & ? & ? & ? & ?).
        split_and!; try done. by right.
    + destruct (IH _ Hf i Hi) as (? & ? & ? & ? & ?).
      split_and!; try done. by right.
Qed.

(** ** The result, category by category *)

Section Result.
Context (m : DaeModel) (dae_vars dae_cons input_vars disturbance_vars : list nat).
Context (vp : gmap VC.t (list nat)) (cp : gmap CC.t (list nat)).
Hypothesis Hres :
  categorize_dae_variables_and_constraints m dae_vars dae_cons input_vars
    disturbance_vars = Ok (vp, cp).

Lemma categorize_inv :
  ∃ found,
    find_derivatives m
      (free_vars m dae_vars dae_cons input_vars disturbance_vars)
      (active_constraints m dae_cons)
      (free_vars m dae_vars dae_cons input_vars disturbance_vars) = Ok found
    ∧ members vp VC.DIFFERENTIAL
      = filter (λ x, state_var m x = None ∧ x ∈ di_state <$> found)
          (free_vars m dae_vars dae_cons input_vars disturbance_vars)
    ∧ members vp VC.DERIVATIVE
      = filter (λ x, x ∈ di_deriv <$> found)
          (free_vars m dae_vars dae_cons input_vars disturbance_vars)
    ∧ members vp VC.ALGEBRAIC
      = filter (λ x, (x ∉ di_deriv <$> found)
                     ∧ ¬ (state_var m x = None ∧ x ∈ di_state <$> found))
          (free_vars m dae_vars dae_cons input_vars disturbance_vars)
    ∧ members vp VC.INPUT
      = filter (λ x, x ∈ input_vars) (remove_dups dae_vars)
    ∧ members vp VC.DISTURBANCE
      = filter (λ x, (x ∉ input_vars) ∧ x ∈ disturbance_vars)
          (remove_dups dae_vars)
    ∧ members vp VC.FIXED = []
    ∧ members vp VC.UNUSED
      = filter (λ x, ¬ (var_fixed m x = false
                        ∧ used_in m (active_constraints m dae_cons) x))
          (candidate_vars dae_vars input_vars disturbance_vars)
    ∧ dom vp = list_to_set VC.all
    ∧ dom cp = list_to_set CC.all.
Proof.
  unfold categorize_dae_variables_and_constraints in Hres. cbv zeta in Hres.
  destruct (find_derivatives m _ _ _) as [found|] eqn:Hf; [|done].
  exists found. injection Hres as <- <-.
  split_and!; reflexivity.
Qed.

End Result.


Lemma free_vars_spec (m : DaeModel)
    (dae_vars dae_cons input_vars disturbance_vars : list nat) (x : nat) :
  x ∈ free_vars m dae_vars dae_cons input_vars disturbance_vars
  ↔ x ∈ dae_vars ∧ (x ∉ input_vars) ∧ (x ∉ disturbance_vars)
    ∧ var_fixed m x = false
    ∧ used_in m (active_constraints m dae_cons) x.
Proof.
  unfold free_vars, candidate_vars.
  rewrite !list_elem_of_filter, elem_of_remove_dups. tauto.
Qed.

Lemma active_constraints_spec (m : DaeModel) (dae_cons : list nat) (c : nat) :
  c ∈ active_constraints m dae_cons ↔ c ∈ dae_cons ∧ con_active m c = true.
Proof.
  unfold active_constraints.
  rewrite list_elem_of_filter, elem_of_remove_dups. tauto.
Qed.

Lemma NoDup_free_vars (m : DaeModel)
    (dae_vars dae_cons input_vars disturbance_vars : list nat) :
  NoDup (free_vars m dae_vars dae_cons input_vars disturbance_vars).
Proof.
  unfold free_vars, candidate_vars.
  apply NoDup_filter, NoDup_filter, NoDup_remove_dups.
Qed.

(** Membership in each category, for a result of the categoriser. *)
Lemma members_iff (m : DaeModel)
    (dae_vars dae_cons input_vars disturbance_vars : list nat)
    (vp : gmap VC.t (list nat)) (cp : gmap CC.t (list nat)) :
  categorize_dae_variables_and_constraints m dae_vars dae_cons input_vars
    disturbance_vars = Ok (vp, cp) →
  ∃ found,
    find_derivatives m
      (free_vars m dae_vars dae_cons input_vars disturbance_vars)
      (active_constraints m dae_cons)
      (free_vars m dae_vars dae_cons input_vars disturbance_vars) = Ok found
    ∧ ∀ x,
      let free := x ∈ free_vars m dae_vars dae_cons input_vars
                        disturbance_vars in
      let is_deriv := x ∈ di_deriv <$> found in
      let is_state := state_var m x = None ∧ x ∈ di_state <$> found in
      (x ∈ members vp VC.DIFFERENTIAL ↔ free ∧ is_state)
      ∧ (x ∈ members vp VC.DERIVATIVE ↔ free ∧ is_deriv)
      ∧ (x ∈ members vp VC.ALGEBRAIC ↔ free ∧ (¬ is_deriv) ∧ ¬ is_state)
      ∧ (x ∈ members vp VC.INPUT ↔ x ∈ dae_vars ∧ x ∈ input_vars)
      ∧ (x ∈ members vp VC.DISTURBANCE
         ↔ x ∈ dae_vars ∧ (x ∉ input_vars) ∧ x ∈ disturbance_vars)
      ∧ (x ∈ members vp VC.FIXED ↔ False)
      ∧ (x ∈ members vp VC.UNUSED
         ↔ x ∈ dae_vars ∧ (x ∉ input_vars) ∧ (x ∉ disturbance_vars)
           ∧ ¬ (var_fixed m x = false
                ∧ used_in m (active_constraints m dae_cons) x))
      ∧ (is_deriv → ¬ is_state).
Proof.
  intros Hres.
  destruct (categorize_inv _ _ _ _ _ _ _ Hres)
    as (found & Hf & Hdiff & Hder & Halg & Hin & Hdist & Hfix & Hun & _).
  exists found. split; [done|]. intros x. cbv zeta.
  rewrite Hdiff, Hder, Halg, Hin, Hdist, Hfix, Hun. unfold candidate_vars.
  rewrite !list_elem_of_filter, !elem_of_remove_dups, elem_of_nil.
  split_and!; try tauto.
  intros Hd [Hn _].
  apply list_elem_of_fmap in Hd as (i & -> & Hi).
  destruct (find_derivatives_sound _ _ _ _ _ Hf i Hi) as (_ & Hs & _).
  congruence.
Qed.

(** C1. When [categorize_dae_variables_and_constraints] returns, the
    variable partition is keyed by DIFFERENTIAL, DERIVATIVE, ALGEBRAIC,
    INPUT, DISTURBANCE, FIXED and UNUSED and the constraint partition by
    DIFFERENTIAL, DISCRETIZATION, ALGEBRAIC and UNUSED. Every supplied
    variable is filed under exactly one label, no category lists a variable
    twice and none lists a variable that was not supplied: the partition is
    a disjoint cover of the supplied variables. *)
Theorem categorize_partition (m : DaeModel)
    (dae_vars dae_cons input_vars disturbance_vars : list nat)
    (vp : gmap VC.t (list nat)) (cp : gmap CC.t (list nat)) :
  categorize_dae_variables_and_constraints m dae_vars dae_cons input_vars
    disturbance_vars = Ok (vp, cp) →
  dom vp = list_to_set VC.all
  ∧ dom cp = list_to_set CC.all
  ∧ (∀ x, x ∈ dae_vars →
       ∃ c, x ∈ members vp c ∧ ∀ c', x ∈ members vp c' → c' = c)
  ∧ (∀ c, NoDup (members vp c))
  ∧ (∀ c x, x ∈ members vp c → x ∈ dae_vars).
Proof.
  intros Hres.
  destruct (members_iff _ _ _ _ _ _ _ Hres) as (found & _ & Hmem).
  destruct (categorize_inv _ _ _ _ _ _ _ Hres)
    as (found2 & _ & Hdiff & Hder & Halg & Hin & Hdist & Hfix & Hun
        & Hdv & Hdc).
  split; [done|]. split; [done|]. split_and!.
  - clear Hdiff Hder Halg Hin Hdist Hfix Hun Hdv Hdc Hres.
    intros x Hx. specialize (Hmem x). cbv zeta in Hmem.
    rewrite free_vars_spec in Hmem.
    destruct Hmem as (H1 & H2 & H3 & H4 & H5 & H6 & H7 & H8).
    destruct (decide (x ∈ input_vars));
      [exists VC.INPUT; split; [tauto | intros []; tauto] |].
    destruct (decide (x ∈ disturbance_vars));
      [exists VC.DISTURBANCE; split; [tauto | intros []; tauto] |].
    destruct (decide (var_fixed m x = false
                      ∧ used_in m (active_constraints m dae_cons) x));
      [| exists VC.UNUSED; split; [tauto | intros []; tauto] ].
    destruct (decide (x ∈ di_deriv <$> found));
      [exists VC.DERIVATIVE; split; [tauto | intros []; tauto] |].
    destruct (decide (state_var m x = None ∧ x ∈ di_state <$> found));
      [exists VC.DIFFERENTIAL; split; [tauto | intros []; tauto] |].
    exists VC.ALGEBRAIC; split; [tauto | intros []; tauto].
  - intros []; rewrite ?Hdiff, ?Hder, ?Halg, ?Hin, ?Hdist, ?Hfix, ?Hun;
      unfold candidate_vars;
      repeat apply NoDup_filter;
      first [apply NoDup_free_vars | apply NoDup_remove_dups | apply NoDup_nil_2].
  - clear Hdiff Hder Halg Hin Hdist Hfix Hun Hdv Hdc Hres.
    intros c x. specialize (Hmem x). cbv zeta in Hmem.
    rewrite free_vars_spec in Hmem.
    destruct c; tauto.
Qed.

Lemma categorize_partition_witness :
  categorize_dae_variables_and_constraints (deriv_model true [] [])
    [v; dv] [diff_eqn; dv_disc_eq] [] []
  = Ok (deriv_var_partition, deriv_con_partition)
  ∧ dom deriv_var_partition = list_to_set VC.all
  ∧ dom deriv_con_partition = list_to_set CC.all
  ∧ (∀ x, x ∈ [v; dv] →
       ∃ c, x ∈ members deriv_var_partition c
            ∧ ∀ c', x ∈ members deriv_var_partition c' → c' = c)
  ∧ (∀ c, NoDup (members deriv_var_partition c))
  ∧ (∀ c x, x ∈ members deriv_var_partition c → x ∈ [v; dv]).
Proof.
  assert (H : categorize_dae_variables_and_constraints
                (deriv_model true [] []) [v; dv] [diff_eqn; dv_disc_eq] [] []
              = Ok (deriv_var_partition, deriv_con_partition))
    by (vm_compute; reflexivity).
  split; [exact H|].
  exact (categorize_partition _ _ _ _ _ _ _ H).
Defined.




(** ** Dependence on the state of the model *)

Lemma filter_agree {A} (P Q : A → Prop) `{∀ x, Decision (P x)}
    `{∀ x, Decision (Q x)} (l : list A) :
  (∀ x, x ∈ l → P x ↔ Q x) → filter P l = filter Q l.
Proof.
  induction l as [|a l IH]; intros HPQ; [done|].
  rewrite !filter_cons.
  rewrite IH by (intros x Hx; apply HPQ; by right).
  destruct (decide (P a)) as [HP|HP], (decide (Q a)) as [HQ|HQ];
    try done; exfalso; apply (HPQ a) in HP || apply (HPQ a) in HQ;
    done || by left.
Qed.

Section Agree.
Context (m1 m2 : DaeModel) (dae_vars dae_cons : list nat).
Hypothesis Hagree : agree_on dae_vars dae_cons m1 m2.

Lemma agree_active_constraints :
  active_constraints m1 dae_cons = active_constraints m2 dae_cons.
Proof.
  destruct Hagree as [_ Hc]. unfold active_constraints.
  apply filter_agree. intros c Hin. rewrite elem_of_remove_dups in Hin.
  by destruct (Hc c Hin) as [-> _].
Qed.

Lemma agree_used_in (x : nat) :
  used_in m1 (active_constraints m1 dae_cons) x
  ↔ used_in m2 (active_constraints m2 dae_cons) x.
Proof.
  destruct Hagree as [_ Hc]. rewrite <- agree_active_constraints.
  unfold used_in. rewrite !Exists_exists.
  split; intros (c & Hin & Hx); exists c; (split; [done|]);
    apply active_constraints_spec in Hin as [Hin _];
    destruct (Hc c Hin) as [_ Hv]; congruence.
Qed.

Lemma agree_free_vars (input_vars disturbance_vars : list nat) :
  free_vars m1 dae_vars dae_cons input_vars disturbance_vars
  = free_vars m2 dae_vars dae_cons input_vars disturbance_vars.
Proof.
  unfold free_vars. apply filter_agree. intros x Hin.
  unfold candidate_vars in Hin.
  apply list_elem_of_filter in Hin as [_ Hin].
  rewrite elem_of_remove_dups in Hin.
  destruct Hagree as [Hv _]. destruct (Hv x Hin) as (-> & _).
  by rewrite agree_used_in.
Qed.

Lemma agree_find_derivatives (free active_cons todo : list nat) :
  (∀ x, x ∈ todo → x ∈ dae_vars) →
  find_derivatives m1 free active_cons todo
  = find_derivatives m2 free active_cons todo.
Proof.
  destruct Hagree as [Hv _].
  induction todo as [|x todo IH]; intros Hsub; simpl; [done|].
  destruct (Hv x (Hsub x ltac:(by left))) as (_ & -> & ->).
  rewrite IH by (intros y Hy; apply Hsub; by right). done.
Qed.

Lemma agree_categorize (input_vars disturbance_vars : list nat) :
  categorize_dae_variables_and_constraints m1 dae_vars dae_cons input_vars
    disturbance_vars
  = categorize_dae_variables_and_constraints m2 dae_vars dae_cons input_vars
      disturbance_vars.
Proof.
  pose proof (free_vars_spec m2 dae_vars dae_cons input_vars
                disturbance_vars) as Hfree.
  pose proof (active_constraints_spec m2 dae_cons) as Hact.
  unfold categorize_dae_variables_and_constraints. cbv zeta.
  rewrite agree_free_vars, agree_active_constraints.
  rewrite agree_find_derivatives by (intros x Hx; by apply Hfree in Hx as [? _]).
  destruct (find_derivatives m2 _ _ _) as [found|]; [|done].
  destruct Hagree as [Hv Hc].
  rewrite (filter_agree
             (λ x, state_var m1 x = None ∧ x ∈ di_state <$> found)
             (λ x, state_var m2 x = None ∧ x ∈ di_state <$> found))
    by (intros x Hx; apply Hfree in Hx as [Hx _];
        by destruct (Hv x Hx) as (_ & -> & _)).
  rewrite (filter_agree
             (λ x, (x ∉ di_deriv <$> found)
                   ∧ ¬ (state_var m1 x = None ∧ x ∈ di_state <$> found))
             (λ x, (x ∉ di_deriv <$> found)
                   ∧ ¬ (state_var m2 x = None ∧ x ∈ di_state <$> found)))
    by (intros x Hx; apply Hfree in Hx as [Hx _];
        by destruct (Hv x Hx) as (_ & -> & _)).
  rewrite (filter_agree
             (λ x, ¬ (var_fixed m1 x = false
                      ∧ used_in m1 (active_constraints m2 dae_cons) x))
             (λ x, ¬ (var_fixed m2 x = false
                      ∧ used_in m2 (active_constraints m2 dae_cons) x))).
  2:{ intros x Hx. unfold candidate_vars in Hx.
      apply list_elem_of_filter in Hx as [_ Hx].
      rewrite elem_of_remove_dups in Hx.
      destruct (Hv x Hx) as (-> & _).
      pose proof (agree_used_in x) as Hu.
      rewrite agree_active_constraints in Hu. by rewrite Hu. }
  rewrite (filter_agree
             (λ c, (c ∉ di_disc <$> found)
                   ∧ Exists (λ d, d ∈ con_vars m1 c) (di_deriv <$> found))
             (λ c, (c ∉ di_disc <$> found)
                   ∧ Exists (λ d, d ∈ con_vars m2 c) (di_deriv <$> found)))
    by (intros c Hin; apply Hact in Hin as [Hin _];
        by destruct (Hc c Hin) as [_ ->]).
  rewrite (filter_agree
             (λ c, (c ∉ di_disc <$> found)
                   ∧ ¬ Exists (λ d, d ∈ con_vars m1 c) (di_deriv <$> found))
             (λ c, (c ∉ di_disc <$> found)
                   ∧ ¬ Exists (λ d, d ∈ con_vars m2 c) (di_deriv <$> found)))
    by (intros c Hin; apply Hact in Hin as [Hin _];
        by destruct (Hc c Hin) as [_ ->]).
  rewrite (filter_agree (λ c, con_active m1 c ≠ true)
             (λ c, con_active m2 c ≠ true))
    by (intros c Hin; rewrite elem_of_remove_dups in Hin;
        by destruct (Hc c Hin) as [-> _]).
  reflexivity.
Qed.

End Agree.

(** ** Fixing a variable *)

Lemma find_derivatives_returns (m : DaeModel)
    (free active_cons todo : list nat) :
  (∃ found, find_derivatives m free active_cons todo = Ok found)
  ↔ ∀ x, x ∈ todo → state_var m x ≠ None → disc_eq m x ≠ None.
Proof.
  induction todo as [|x todo IH]; simpl.
  - split; [intros _ x Hx; by apply elem_of_nil in Hx | eauto].
  - split.
    + intros [found Hf] y Hy.
      destruct (state_var m x) as [s|] eqn:Hs.
      * destruct (disc_eq m x) as [c|] eqn:Hc; [|done].
        destruct (find_derivatives m free active_cons todo) as [rest|] eqn:Hr;
          [|done].
        apply elem_of_cons in Hy as [->|Hy]; [by rewrite Hc|].
        apply IH; eauto.
      * apply elem_of_cons in Hy as [->|Hy]; [by rewrite Hs|].
        apply IH; eauto.
    + intros Hall.
      destruct (proj2 IH) as [rest Hr];
        [intros y Hy; apply Hall; by right|].
      rewrite Hr.
      destruct (state_var m x) as [s|] eqn:Hs; [|eauto].
      destruct (disc_eq m x) as [c|] eqn:Hc.
      * destruct (_ && _); eauto.
      * destruct (Hall x ltac:(by left)); [by rewrite Hs | done].
Qed.

Lemma fix_var_same_structure (m : DaeModel) (x : nat) :
  same_structure m (fix_var m x).
Proof. by repeat split. Qed.

Lemma free_vars_fix_var (m : DaeModel)
    (dae_vars dae_cons input_vars disturbance_vars : list nat) (x y : nat) :
  y ∈ free_vars (fix_var m x) dae_vars dae_cons input_vars disturbance_vars
  ↔ y ≠ x ∧ y ∈ free_vars m dae_vars dae_cons input_vars disturbance_vars.
Proof.
  rewrite !free_vars_spec. unfold fix_var at 1. cbn [var_fixed].
  assert (Hu : used_in (fix_var m x) (active_constraints (fix_var m x) dae_cons) y
               ↔ used_in m (active_constraints m dae_cons) y) by done.
  rewrite Hu. destruct (bool_decide_reflect (y = x)); [|tauto].
  split; [by intros (_ & _ & _ & ? & _) | by intros [? _]].
Qed.

Lemma categorize_fix_var (m : DaeModel)
    (dae_vars dae_cons input_vars disturbance_vars : list nat)
    (vp : gmap VC.t (list nat)) (cp : gmap CC.t (list nat)) (x : nat) :
  categorize_dae_variables_and_constraints m dae_vars dae_cons input_vars
    disturbance_vars = Ok (vp, cp) →
  x ∈ members vp VC.DIFFERENTIAL ∨ x ∈ members vp VC.DERIVATIVE
    ∨ x ∈ members vp VC.ALGEBRAIC →
  ∃ vp' cp',
    categorize_dae_variables_and_constraints (fix_var m x) dae_vars dae_cons
      input_vars disturbance_vars = Ok (vp', cp')
    ∧ x ∈ members vp' VC.UNUSED
    ∧ x ∉ members vp VC.UNUSED.
Proof.
  intros Hres Hx.
  destruct (members_iff _ _ _ _ _ _ _ Hres) as (found & Hf & Hmem).
  assert (Hfree : x ∈ free_vars m dae_vars dae_cons input_vars
                        disturbance_vars).
  { destruct (Hmem x) as (H1 & H2 & H3 & _). cbv zeta in *. tauto. }
  assert (Hun : x ∉ members vp VC.UNUSED).
  { destruct (Hmem x) as (_ & _ & _ & _ & _ & _ & H7 & _).
    apply free_vars_spec in Hfree. cbv zeta in *. tauto. }
  destruct (categorize_dae_variables_and_constraints (fix_var m x) dae_vars
              dae_cons input_vars disturbance_vars) as [[vp' cp']|e] eqn:Hres'.
  - exists vp', cp'. split_and!; [done | | done].
    destruct (members_iff _ _ _ _ _ _ _ Hres') as (found' & _ & Hmem').
    destruct (Hmem' x) as (_ & _ & _ & _ & _ & _ & H7 & _).
    apply free_vars_spec in Hfree as (? & ? & ? & _).
    apply H7. split_and!; try done. intros [Hfix _].
    unfold fix_var in Hfix. cbn [var_fixed] in Hfix.
    by rewrite bool_decide_eq_true_2 in Hfix.
  - exfalso.
    unfold categorize_dae_variables_and_constraints in Hres'.
    cbv zeta in Hres'.
    destruct (find_derivatives (fix_var m x) _ _ _) as [found'|] eqn:Hf';
      [done|].
    assert (Hok : ∃ found', find_derivatives (fix_var m x)
                    (free_vars (fix_var m x) dae_vars dae_cons input_vars
                       disturbance_vars)
                    (active_constraints (fix_var m x) dae_cons)
                    (free_vars (fix_var m x) dae_vars dae_cons input_vars
                       disturbance_vars) = Ok found').
    { apply find_derivatives_returns. intros y Hy.
      apply free_vars_fix_var in Hy as [_ Hy].
      apply (proj1 (find_derivatives_returns m _ _ _) (ex_intro _ _ Hf) y Hy). }
    destruct Hok as [found' Hok]. congruence.
Qed.

(** C3. The result of the categoriser is a function of the state of the
    model, fixed variables included. It is determined by what the model
    says of the supplied variables and constraints: two models that agree
    there get the same partitions from the same arguments, whatever they
    say elsewhere; in particular two models with the same structure and
    the same fixed variables do. And it depends on the fixed variables: when
    a variable that a call files as DIFFERENTIAL, DERIVATIVE or ALGEBRAIC
    is fixed, a second call on the model, which differs only in its fixed
    variables, files it as UNUSED, so the partitions differ; the model of
    [test_categorize_deriv] is one where this happens. *)
Theorem categorize_depends_on_fixed :
  (∀ (m1 m2 : DaeModel)
     (dae_vars dae_cons input_vars disturbance_vars : list nat),
     agree_on dae_vars dae_cons m1 m2 →
     categorize_dae_variables_and_constraints m1 dae_vars dae_cons
       input_vars disturbance_vars
     = categorize_dae_variables_and_constraints m2 dae_vars dae_cons
         input_vars disturbance_vars)
  ∧ (∀ (m1 m2 : DaeModel)
       (dae_vars dae_cons input_vars disturbance_vars : list nat),
       same_structure m1 m2 → same_fixed m1 m2 →
       categorize_dae_variables_and_constraints m1 dae_vars dae_cons
         input_vars disturbance_vars
       = categorize_dae_variables_and_constraints m2 dae_vars dae_cons
           input_vars disturbance_vars)
  ∧ (∀ (m : DaeModel)
       (dae_vars dae_cons input_vars disturbance_vars : list nat)
       (vp : gmap VC.t (list nat)) (cp : gmap CC.t (list nat)) (x : nat),
       categorize_dae_variables_and_constraints m dae_vars dae_cons
         input_vars disturbance_vars = Ok (vp, cp) →
       x ∈ members vp VC.DIFFERENTIAL ∨ x ∈ members vp VC.DERIVATIVE
         ∨ x ∈ members vp VC.ALGEBRAIC →
       same_structure m (fix_var m x)
       ∧ ∃ vp' cp',
           categorize_dae_variables_and_constraints (fix_var m x) dae_vars
             dae_cons input_vars disturbance_vars = Ok (vp', cp')
           ∧ x ∈ members vp' VC.UNUSED
           ∧ (x ∉ members vp VC.UNUSED)
           ∧ vp' ≠ vp)
  ∧ (∃ (m1 m2 : DaeModel) (dae_vars dae_cons : list nat),
       same_structure m1 m2
       ∧ categorize_dae_variables_and_constraints m1 dae_vars dae_cons [] []
         ≠ categorize_dae_variables_and_constraints m2 dae_vars dae_cons
             [] []).
Proof.
  split_and!.
  - intros m1 m2 dae_vars dae_cons input_vars disturbance_vars Ha.
    by apply agree_categorize.
  - intros m1 m2 dae_vars dae_cons input_vars disturbance_vars Hs Hf.
    apply agree_categorize. destruct Hs as (Ha & Hv & Hst & Hd).
    split; intros y _; by rewrite ?Hf, ?Ha, ?Hv, ?Hst, ?Hd.
  - intros m dae_vars dae_cons input_vars disturbance_vars vp cp x Hres Hx.
    split; [apply fix_var_same_structure|].
    destruct (categorize_fix_var _ _ _ _ _ _ _ _ Hres Hx)
      as (vp' & cp' & Hres' & Hin & Hout).
    exists vp', cp'. split_and!; try done. by intros ->.
  - exists (deriv_model true [] []), (fix_var (deriv_model true [] []) dv),
      [v; dv], [diff_eqn; dv_disc_eq].
    split; [apply fix_var_same_structure|].
    intros H.
    assert (Hv : vars_of (categorize_dae_variables_and_constraints
                            (deriv_model true [] []) [v; dv]
                            [diff_eqn; dv_disc_eq] [] []) VC.DERIVATIVE
                 = vars_of (categorize_dae_variables_and_constraints
                              (fix_var (deriv_model true [] []) dv) [v; dv]
                              [diff_eqn; dv_disc_eq] [] []) VC.DERIVATIVE)
      by (by rewrite H).
    vm_compute in Hv. discriminate Hv.
Qed.

End CategorizeFacts.

(* ========================================================================= *)
(** * Further properties of [idaes get-examples] *)

(** ** The file system operations *)

Module FileSystemFacts.
Import Examples ExamplesVocabulary.

Lemma fs_remove_lookup_below (fs : gmap (list string) node) (d k : list string) :
  d `prefix_of` k → fs_remove fs d !! k = None.
Proof.
  intros Hp. unfold fs_remove. apply map_lookup_filter_None. right.
  intros x _ Hn. by apply Hn.
Qed.

Lemma fs_remove_lookup_other (fs : gmap (list string) node) (d k : list string) :
  ¬ d `prefix_of` k → fs_remove fs d !! k = fs !! k.
Proof.
  intros Hp. unfold fs_remove.
  destruct (fs !! k) as [x|] eqn:Hk.
  - by apply map_lookup_filter_Some.
  - apply map_lookup_filter_None. by left.
Qed.

Lemma retarget_key (src dst q : list string) (n : node) :
  retarget src dst (src ++ q, n) = (dst ++ q, n).
Proof. unfold retarget. simpl. by rewrite drop_app_length. Qed.

Lemma moved_keys (fs : gmap (list string) node) (src dst k : list string) :
  k ∈ (retarget src dst <$> map_to_list (fs_subtree fs src)).*1 →
  dst `prefix_of` k.
Proof.
  rewrite <- list_fmap_compose. intros Hk.
  apply list_elem_of_fmap in Hk as ([k0 n] & -> & _).
  simpl. by apply prefix_app_r.
Qed.

Lemma moved_keys_NoDup (fs : gmap (list string) node) (src dst : list string) :
  NoDup (retarget src dst <$> map_to_list (fs_subtree fs src)).*1.
Proof.
  rewrite <- list_fmap_compose.
  apply NoDup_fmap_2_strong; [|apply NoDup_map_to_list].
  intros [k1 n1] [k2 n2] H1 H2 Heq. simpl in Heq.
  apply elem_of_map_to_list in H1, H2.
  apply map_lookup_filter_Some in H1 as [H1 Hp1], H2 as [H2 Hp2].
  simpl in Hp1, Hp2. destruct Hp1 as [r1 ->], Hp2 as [r2 ->].
  rewrite !drop_app_length in Heq.
  apply app_inv_head in Heq as ->.
  f_equal. congruence.
Qed.

(** After a move, what was at [src ++ q] is at [dst ++ q]. *)
Lemma fs_move_lookup_dst (fs : gmap (list string) node)
    (src dst q : list string) (n : node) :
  fs !! (src ++ q) = Some n → fs_move fs src dst !! (dst ++ q) = Some n.
Proof.
  intros Hs. unfold fs_move. apply lookup_union_Some_raw. left.
  apply elem_of_list_to_map_1; [apply moved_keys_NoDup|].
  apply list_elem_of_fmap. exists (src ++ q, n).
  split; [by rewrite retarget_key|].
  apply elem_of_map_to_list, map_lookup_filter_Some.
  split; [done|]. by apply prefix_app_r.
Qed.

(** A move leaves alone what is neither below [src] nor below [dst]. *)
Lemma fs_move_lookup_other (fs : gmap (list string) node)
    (src dst k : list string) :
  ¬ src `prefix_of` k → ¬ dst `prefix_of` k →
  fs_move fs src dst !! k = fs !! k.
Proof.
  intros Hs Hd. unfold fs_move.
  rewrite lookup_union_r.
  - fold (fs_remove fs src). by apply fs_remove_lookup_other.
  - apply not_elem_of_list_to_map_1. intros Hk. by apply moved_keys in Hk.
Qed.

Lemma fs_unpack_lookup_member (fs : gmap (list string) node)
    (dst : list string) (members : list (list string * node))
    (p : list string) (n : node) :
  NoDup members.*1 → (p, n) ∈ members →
  fs_unpack fs dst members !! (dst ++ p) = Some n.
Proof.
  intros Hnd Hm. unfold fs_unpack. apply lookup_union_Some_raw. left.
  apply elem_of_list_to_map_1.
  - rewrite <- list_fmap_compose.
    assert (Heq : (fst ∘ (λ m : list string * node, (dst ++ m.1, m.2)))
                  <$> members = (λ p, dst ++ p) <$> members.*1)
      by (by rewrite <- list_fmap_compose).
    rewrite Heq. apply NoDup_fmap_2; [|done].
    intros x y. apply app_inv_head.
  - apply list_elem_of_fmap. by exists (p, n).
Qed.

Lemma fs_unpack_lookup_other (fs : gmap (list string) node)
    (dst : list string) (members : list (list string * node))
    (k : list string) :
  ¬ dst `prefix_of` k → fs_unpack fs dst members !! k = fs !! k.
Proof.
  intros Hk. unfold fs_unpack. apply lookup_union_r.
  apply not_elem_of_list_to_map_1. intros Hin. apply Hk.
  rewrite <- list_fmap_compose in Hin.
  apply list_elem_of_fmap in Hin as ([p n] & -> & _). simpl.
  by apply prefix_app_r.
Qed.

End FileSystemFacts.

(** ** The download *)

Module DownloadFacts.
Import Examples ExamplesVocabulary ExamplesFacts FileSystemFacts.

#[local] Arguments fs_exists : simpl never.
#[local] Arguments fs_is_dir : simpl never.
#[local] Arguments fs_move : simpl never.
#[local] Arguments fs_remove : simpl never.
#[local] Arguments fs_unpack : simpl never.
#[local] Arguments resolve : simpl never.
#[local] Arguments archive_file_url : simpl never.
#[local] Arguments str_path : simpl never.
#[local] Arguments joinpath : simpl never.
#[local] Arguments Path : simpl never.

Lemma subdir_parts (tmp : list string) (version : string) :
  Abs tmp // (REPO_NAME +:+ "-" +:+ version) // REPO_DIR
  = Abs (tmp ++ archive_subdir version).
Proof.
  unfold archive_subdir, joinpath.
  assert (H : ∃ l, Path (REPO_NAME +:+ "-" +:+ version) = Rel l).
  { unfold Path. cbn. eauto. }
  destruct H as [l ->].
  change (Path REPO_DIR) with (Rel [REPO_DIR]). cbn. by rewrite <- app_assoc.
Qed.

Lemma archive_subdir_last (version : string) :
  ∃ l, archive_subdir version = l ++ [REPO_DIR].
Proof.
  unfold archive_subdir, joinpath.
  assert (H : ∃ l, Path (REPO_NAME +:+ "-" +:+ version) = Rel l).
  { unfold Path. cbn. eauto. }
  destruct H as [l ->].
  change (Path REPO_DIR) with (Rel [REPO_DIR]). cbn. eauto.
Qed.

Lemma resolve_with_fs (w : world) (fs : gmap (list string) node) (p : pth) :
  resolve (with_fs w fs) p = resolve w p.
Proof. by destruct p. Qed.

Lemma resolve_abs (w : world) (l : list string) : resolve w (Abs l) = l.
Proof. reflexivity. Qed.

(** The file system a [download_contents] that returns leaves behind. *)
Lemma download_contents_fs (E : env) version target_dir w w' :
  download_contents E version target_dir w = (Ret tt, w') →
  ∃ members,
    status_code (env_get E (archive_file_url version REPO_ORG REPO_NAME))
      = 200%Z
    ∧ env_unzip E
        (content (env_get E (archive_file_url version REPO_ORG REPO_NAME)))
      = Some members
    ∧ let tmp := env_tmpdir E in
      let unpacked :=
        fs_unpack
          (<[tmp ++ ["examples.zip"] :=
               File (content
                       (env_get E
                          (archive_file_url version REPO_ORG REPO_NAME)))]>
             (<[tmp := Dir]> (w_fs w)))
          tmp members in
      fs_exists unpacked (tmp ++ archive_subdir version) = true
      ∧ fs_is_dir unpacked (removelast (resolve w target_dir)) = true
      ∧ fs_exists unpacked (resolve w target_dir) = false
      ∧ w_fs w'
        = fs_remove
            (fs_move unpacked (tmp ++ archive_subdir version)
               (resolve w target_dir))
            tmp.
Proof.
  unfold download_contents.
  run. rewrite !joinpath_zip, !subdir_parts. intros H.
  repeat case_match; simplify_eq.
  world_simpl.
  repeat (rewrite resolve_with_fs in * || rewrite resolve_with_event in *
          || rewrite resolve_abs in * ).
  rewrite lookup_insert_eq in *. simplify_eq.
  apply negb_false_iff in H8, H9.
  exists a1. cbv zeta. split_and!; try done.
  by apply negb_false_iff, Z.eqb_eq in H16.
Qed.

Lemma prefix_of_app_cases (a b q : list string) :
  a `prefix_of` b ++ q → a `prefix_of` b ∨ b `prefix_of` a.
Proof.
  intros Hp. destruct (prefix_weak_total a b (b ++ q)) as [?|?]; auto.
  by apply prefix_app_r.
Qed.

(** X1. After a download that returns, nothing is left at or below the
    temporary directory. *)
Theorem download_contents_removes_tmp (E : env) (version : string)
    (target_dir : pth) (w w' : world) :
  download_contents E version target_dir w = (Ret tt, w') →
  ∀ k, env_tmpdir E `prefix_of` k → w_fs w' !! k = None.
Proof.
  intros Hd k Hk.
  destruct (download_contents_fs _ _ _ _ _ Hd) as (members & _ & _ & Hfs).
  cbv zeta in Hfs. destruct Hfs as (_ & _ & _ & ->).
  by apply fs_remove_lookup_below.
Qed.

Lemma download_contents_removes_tmp_witness :
  w_fs (download_contents demo_env "1.5.0" (Path "examples") demo_world).2
    !! ["tmp"; "tmpq1w2e3"; "examples.zip"] = None.
Proof.
  apply (download_contents_removes_tmp demo_env "1.5.0" (Path "examples")
           demo_world).
  - vm_compute. reflexivity.
  - by exists ["examples.zip"].
Defined.

Lemma download_contents_target_exists (E : env) (version : string)
    (target_dir : pth) (w w' : world) :
  download_contents E version target_dir w = (Ret tt, w') →
  ¬ env_tmpdir E `prefix_of` resolve w target_dir →
  fs_exists (w_fs w') (resolve w target_dir) = true.
Proof.
  intros Hd Ht1.
  destruct (download_contents_fs _ _ _ _ _ Hd) as (ms & _ & _ & Hfs).
  cbv zeta in Hfs. destruct Hfs as (Hsub & _ & _ & ->).
  unfold fs_exists in *.
  apply orb_true_iff in Hsub as [Hsub|Hsub].
  - apply bool_decide_eq_true in Hsub.
    apply app_eq_nil in Hsub as [_ Hsub].
    destruct (archive_subdir_last version) as [l Hl].
    rewrite Hl in Hsub. by destruct l.
  - apply bool_decide_eq_true in Hsub as [n Hn].
    apply orb_true_iff. right. apply bool_decide_eq_true. exists n.
    rewrite fs_remove_lookup_other by done.
    epose proof (fs_move_lookup_dst _ (env_tmpdir E ++ archive_subdir version)
                   (resolve w target_dir) [] n) as Hmv.
    rewrite !app_nil_r in Hmv. by apply Hmv.
Qed.

(** X2. After a download that returns, the target directory exists and
    holds the [REPO_DIR] subdirectory of the archive: a member of the
    archive at [REPO_NAME-version/REPO_DIR/q] is at [target_dir/q]. *)
Theorem download_contents_places_tree (E : env) (version : string)
    (target_dir : pth) (w w' : world)
    (members : list (list string * node)) :
  download_contents E version target_dir w = (Ret tt, w') →
  env_unzip E
    (content (env_get E (archive_file_url version REPO_ORG REPO_NAME)))
  = Some members →
  NoDup members.*1 →
  ¬ env_tmpdir E `prefix_of` resolve w target_dir →
  ¬ resolve w target_dir `prefix_of` env_tmpdir E →
  fs_exists (w_fs w') (resolve w target_dir) = true
  ∧ ∀ q n, (archive_subdir version ++ q, n) ∈ members →
           w_fs w' !! (resolve w target_dir ++ q) = Some n.
Proof.
  intros Hd Hz Hnd Ht1 Ht2.
  split; [by eapply download_contents_target_exists|].
  destruct (download_contents_fs _ _ _ _ _ Hd) as (ms & _ & Hz' & Hfs).
  rewrite Hz in Hz'. injection Hz' as <-.
  cbv zeta in Hfs. destruct Hfs as (Hsub & _ & _ & ->).
  intros q n Hm.
  rewrite fs_remove_lookup_other
    by (intros Hp; by destruct (prefix_of_app_cases _ _ _ Hp)).
  apply fs_move_lookup_dst. rewrite <- app_assoc.
  by apply fs_unpack_lookup_member.
Qed.

Lemma download_contents_places_tree_witness :
  fs_exists
    (w_fs (download_contents demo_env "1.5.0" (Path "examples") demo_world).2)
    ["home"; "examples"] = true
  ∧ w_fs (download_contents demo_env "1.5.0" (Path "examples") demo_world).2
      !! ["home"; "examples"; "sub"; "b.py"] = Some (File "print(2)").
Proof.
  destruct (download_contents_places_tree demo_env "1.5.0" (Path "examples")
              demo_world
              (download_contents demo_env "1.5.0" (Path "examples")
                 demo_world).2
              demo_members) as [Hdir Hmem].
  - vm_compute. reflexivity.
  - reflexivity.
  - apply (bool_decide_unpack (NoDup demo_members.*1)). vm_compute. exact I.
  - intros [k Hk]. discriminate Hk.
  - intros [k Hk]. discriminate Hk.
  - split; [exact Hdir|]. apply (Hmem ["sub"; "b.py"]).
    apply list_elem_of_In. vm_compute. tauto.
Defined.

(** X3. A download that returns changes nothing outside the temporary
    directory and the target directory. *)
Theorem download_contents_frame (E : env) (version : string)
    (target_dir : pth) (w w' : world) :
  download_contents E version target_dir w = (Ret tt, w') →
  ∀ k, ¬ env_tmpdir E `prefix_of` k →
       ¬ resolve w target_dir `prefix_of` k →
       w_fs w' !! k = w_fs w !! k.
Proof.
  intros Hd k Hk1 Hk2.
  destruct (download_contents_fs _ _ _ _ _ Hd) as (ms & _ & _ & Hfs).
  cbv zeta in Hfs. destruct Hfs as (_ & _ & _ & ->).
  rewrite fs_remove_lookup_other by done.
  rewrite fs_move_lookup_other; [|
    intros Hp; apply Hk1; etrans; [by apply prefix_app_r | exact Hp] | done].
  rewrite fs_unpack_lookup_other by done.
  rewrite lookup_insert_ne
    by (intros Heq; apply Hk1; rewrite <- Heq; by apply prefix_app_r).
  rewrite lookup_insert_ne by (intros Heq; apply Hk1; by rewrite Heq).
  done.
Qed.

Lemma download_contents_frame_witness :
  w_fs (download_contents demo_env "1.5.0" (Path "examples") demo_world).2
    !! ["home"]
  = w_fs demo_world !! ["home"].
Proof.
  apply (download_contents_frame demo_env "1.5.0" (Path "examples")
           demo_world).
  - vm_compute. reflexivity.
  - intros [k Hk]. discriminate Hk.
  - intros [k Hk]. discriminate Hk.
Defined.


(** ** Errors of the download *)

(** X4. A GET of the archive that does not answer 200 makes
    [download_contents] raise [DownloadError], with the message
    [file not found] for 400 and 404 and [status=<code>] otherwise; the
    request is all that happened. *)
Theorem download_contents_bad_status (E : env) (version : string)
    (target_dir : pth) (w : world) :
  status_code (env_get E (archive_file_url version REPO_ORG REPO_NAME))
    ≠ 200%Z →
  download_contents E version target_dir w
  = (Raise (DownloadError
       (let code :=
          status_code
            (env_get E (archive_file_url version REPO_ORG REPO_NAME)) in
        if ((code =? 400) || (code =? 404))%Z then "file not found"
        else "status=" +:+ string_of_Z code)),
     with_event w (HttpGet (archive_file_url version REPO_ORG REPO_NAME))).
Proof.
  intros Hs. apply Z.eqb_neq in Hs.
  unfold download_contents. run. rewrite Hs. cbn [negb].
  by destruct (_ || _).
Qed.

Lemma download_contents_bad_status_witness :
  download_contents demo_env "1.6.0" (Path "examples") demo_world
  = (Raise (DownloadError "file not found"),
     with_event demo_world
       (HttpGet "https://github.com/idaes/examples-pse/archive/1.6.0.zip")).
Proof.
  apply (download_contents_bad_status demo_env "1.6.0" (Path "examples")
           demo_world).
  discriminate.
Defined.

(** X5. When no release has the version as its tag, [download_examples]
    prints two lines and exits with status -1; it sends no request and
    the file system is as before. The first line says [installed] when the
    version is the version of the package, and [selected] otherwise; only
    in the first case does the second line point to [-V/--version]. *)
Theorem download_examples_no_release (E : env) (releases : list release)
    (target_dir : pth) (version : string) (w : world) :
  List.find (λ rel, String.eqb version (rel_tag rel)) releases = None →
  download_examples E releases target_dir version w
  = (Raise (SystemExit (-1)),
     with_event
       (with_event w
          (Echo ("No release found matching "
                 +:+ (if String.eqb version (PKG_VERSION E)
                      then "installed" else "selected")
                 +:+ " IDAES package version '" +:+ version +:+ "'.")))
       (Echo ("Use -l/--list-releases to see all"
              +:+ (if String.eqb version (PKG_VERSION E)
                   then " and -V/--version to choose a desired version"
                   else "")
              +:+ "."))).
Proof.
  intros Hm. unfold download_examples. rewrite Hm.
  rewrite bool_decide_eq_true_2 by done. reflexivity.
Qed.

Lemma download_examples_no_release_witness :
  download_examples demo_env demo_releases (Path "examples") "1.4.0" demo_world
  = (Raise (SystemExit (-1)),
     with_event
       (with_event demo_world
          (Echo "No release found matching selected IDAES package version '1.4.0'."))
       (Echo "Use -l/--list-releases to see all.")).
Proof.
  apply (download_examples_no_release demo_env demo_releases (Path "examples")
           "1.4.0" demo_world).
  reflexivity.
Defined.

Lemma download_examples_ret_inv (E : env) (releases : list release)
    (target_dir : pth) (version : string) (w w' : world) :
  download_examples E releases target_dir version w = (Ret tt, w') →
  List.find (λ rel, String.eqb version (rel_tag rel)) releases ≠ None
  ∧ download_contents E version target_dir w = (Ret tt, w').
Proof.
  unfold download_examples. run.
  destruct (bool_decide_reflect
              (List.find (λ rel, String.eqb version (rel_tag rel)) releases
               = None)) as [|Hm]; [done|].
  destruct (fs_exists _ _); [done|].
  destruct (download_contents E version target_dir w) as [[[]|e] w1] eqn:Hd.
  - intros ?; by simplify_eq.
  - destruct e; try done. by destruct (fs_exists _ _).
Qed.

(** X6. A download is not repeated. After a [download_examples] that
    returns, the same call finds the target directory in its way: it prints
    that it cannot download and exits with status -1, and changes
    nothing. *)
Theorem download_examples_second_run (E : env) (releases : list release)
    (target_dir : pth) (version : string) (w w' : world) :
  download_examples E releases target_dir version w = (Ret tt, w') →
  ¬ env_tmpdir E `prefix_of` resolve w target_dir →
  download_examples E releases target_dir version w'
  = (Raise (SystemExit (-1)),
     with_event w' (Echo (cannot_download target_dir))).
Proof.
  intros Hr Ht.
  apply download_examples_ret_inv in Hr as [Hm Hd].
  pose proof (download_contents_target_exists _ _ _ _ _ Hd Ht) as Hex.
  apply download_contents_returns in Hd as [_ Hcwd].
  assert (Hres : resolve w' target_dir = resolve w target_dir).
  { destruct target_dir; unfold resolve; [done | by rewrite Hcwd]. }
  unfold download_examples.
  rewrite bool_decide_eq_false_2 by exact Hm.
  run. rewrite Hres, Hex. reflexivity.
Qed.

Lemma download_examples_second_run_witness :
  download_examples demo_env demo_releases (Path "examples") "1.5.0"
    (download_examples demo_env demo_releases (Path "examples") "1.5.0"
       demo_world).2
  = (Raise (SystemExit (-1)),
     with_event
       (download_examples demo_env demo_releases (Path "examples") "1.5.0"
          demo_world).2
       (Echo "Cannot download: target directory 'examples' already exists.")).
Proof.
  apply (download_examples_second_run demo_env demo_releases (Path "examples")
           "1.5.0" demo_world).
  - vm_compute. reflexivity.
  - intros [k Hk]. discriminate Hk.
Defined.

(** X7. [download_examples] handles [DownloadError] and nothing else.
    When a release matches and the target directory is free, any other
    exception of [download_contents] leaves [download_examples] as it is,
    with no message and no clean-up. *)
Theorem download_examples_propagates (E : env) (releases : list release)
    (target_dir : pth) (version : string) (w w1 : world) (e : exn) :
  List.find (λ rel, String.eqb version (rel_tag rel)) releases ≠ None →
  fs_exists (w_fs w) (resolve w target_dir) = false →
  download_contents E version target_dir w = (Raise e, w1) →
  (∀ msg, e ≠ DownloadError msg) →
  download_examples E releases target_dir version w = (Raise e, w1).
Proof.
  intros Hm Hex Hd He. unfold download_examples.
  rewrite bool_decide_eq_false_2 by exact Hm.
  run. rewrite Hex, Hd.
  destruct e as [msg| | | | | | |]; try reflexivity. by destruct (He msg).
Qed.

Lemma download_examples_propagates_witness :
  download_examples corrupt_env demo_releases (Path "examples") "1.5.0"
    demo_world
  = (Raise BadZipFile,
     (download_contents corrupt_env "1.5.0" (Path "examples") demo_world).2).
Proof.
  apply (download_examples_propagates corrupt_env demo_releases
           (Path "examples") "1.5.0" demo_world).
  - discriminate.
  - reflexivity.
  - vm_compute. reflexivity.
  - discriminate.
Defined.

End DownloadFacts.

(** ** The list of releases *)

Module ReleaseFacts.
Import Examples ExamplesFacts.

Lemma leb_refl (s : string) : String.leb s s = true.
Proof. by destruct (String.leb_total s s). Qed.

Lemma insert_by_date_filter (d : string) (x : release) (l : list release) :
  filter (λ r, rel_date r = d) (insert_by_date x l)
  = filter (λ r, rel_date r = d) (x :: l).
Proof.
  induction l as [|y l IH]; cbn [insert_by_date]; [done|].
  destruct (String.leb (rel_date x) (rel_date y)) eqn:Hle; [done|].
  rewrite filter_cons, IH, !filter_cons.
  destruct (decide (rel_date y = d)) as [Hy|Hy];
    destruct (decide (rel_date x = d)) as [Hx|Hx]; try done.
  rewrite Hx, <- Hy, leb_refl in Hle. done.
Qed.

Lemma sort_by_date_filter (d : string) (l : list release) :
  filter (λ r, rel_date r = d) (sort_by_date l)
  = filter (λ r, rel_date r = d) l.
Proof.
  induction l as [|x l IH]; [done|].
  unfold sort_by_date in *. cbn [foldr].
  by rewrite insert_by_date_filter, !filter_cons, IH.
Qed.

(** X8. The sort of [get_releases] is stable: the releases published at
    one and the same date come out in the order in which the API lists
    them. *)
Theorem get_releases_stable (E : env) (w : world) (d : string) :
  ∃ rels,
    (get_releases E w).1 = Ret rels
    ∧ filter (λ r, rel_date r = d) rels
      = filter (λ r, rel_date r = d)
          (release_of <$> env_json E (content (env_get E releases_url))).
Proof.
  rewrite get_releases_run. eexists. split; [reflexivity|].
  apply sort_by_date_filter.
Qed.

End ReleaseFacts.

(** ** The table of releases *)

Module PrintFacts.
Import Examples ExamplesVocabulary ExamplesFacts.









End PrintFacts.

(** ** The Python directories *)

Module FindFacts.
Import Examples ExamplesVocabulary ExamplesFacts.

Lemma elem_of_prefixes (q l : list string) :
  q ∈ prefixes l ↔ q ≠ [] ∧ q `prefix_of` l.
Proof.
  revert q. induction l as [|x l IH]; intros q; simpl.
  - rewrite elem_of_nil. split; [done|]. intros [Hq Hp].
    by apply prefix_nil_inv in Hp.
  - rewrite elem_of_cons, list_elem_of_fmap. split.
    + intros [->|(q' & -> & Hq')].
      * split; [done|]. by apply prefix_cons, prefix_nil.
      * apply IH in Hq' as [_ Hp]. split; [done|]. by apply prefix_cons.
    + intros [Hq Hp]. destruct q as [|y q]; [done|].
      apply prefix_cons_inv_1 in Hp as Hxy. subst y.
      apply prefix_cons_inv_2 in Hp.
      destruct q as [|z q]; [by left|]. right.
      exists (z :: q). split; [done|]. by apply IH.
Qed.

Lemma extend_inj (p : pth) (q1 q2 : list string) :
  extend p q1 = extend p q2 → q1 = q2.
Proof. destruct p; simpl; intros [= H]; by apply app_inv_head in H. Qed.

Lemma extend_nil (p : pth) (q : list string) : extend p q = p → q = [].
Proof.
  destruct p as [l|l]; simpl; intros [= H];
    apply (app_inv_head l); by rewrite app_nil_r.
Qed.


Lemma rglob_py_run (target_dir : pth) (w : world) :
  ∃ found,
    rglob_py target_dir w = (Ret found, w)
    ∧ ∀ rel, rel ∈ found ↔
        ∃ init name,
          rel = init ++ [name]
          ∧ is_Some (w_fs w !! (resolve w target_dir ++ init ++ [name]))
          ∧ endswith ".py" name = true.
Proof.
  eexists. split; [reflexivity|]. intros rel.
  rewrite list_elem_of_fmap. split.
  - intros (k & -> & Hk). apply list_elem_of_In, filter_In in Hk as [Hk Hc].
    apply list_elem_of_In, list_elem_of_fmap in Hk as ([k' n] & -> & Hk).
    apply elem_of_map_to_list in Hk. simpl in *.
    apply andb_true_iff in Hc as [Hc Hpy].
    apply andb_true_iff in Hc as [Hpre Hne].
    apply bool_decide_eq_true in Hpre as [r ->].
    apply negb_true_iff, bool_decide_eq_false in Hne.
    rewrite drop_app_length.
    destruct (decide (r = [])) as [->|Hr];
      [by rewrite app_nil_r in Hne|].
    destruct (exists_last Hr) as (init & name & ->).
    exists init, name. split; [done|]. split; [by rewrite Hk|].
    by rewrite app_assoc, last_last in Hpy.
  - intros (init & name & -> & [n Hn] & Hpy).
    exists (resolve w target_dir ++ init ++ [name]).
    split; [by rewrite drop_app_length|].
    apply list_elem_of_In, filter_In. split.
    + apply list_elem_of_In, list_elem_of_fmap.
      exists (resolve w target_dir ++ init ++ [name], n). split; [done|].
      by apply elem_of_map_to_list.
    + apply andb_true_iff. split; [apply andb_true_iff; split|].
      * apply bool_decide_eq_true. by apply prefix_app_r.
      * apply negb_true_iff, bool_decide_eq_false. intros Heq.
        apply (f_equal List.length) in Heq.
        rewrite !length_app in Heq. simpl in Heq. lia.
      * by rewrite !app_assoc, last_last.
Qed.

Lemma find_python_directories_run (target_dir : pth) (w : world) :
  ∃ dirs,
    find_python_directories target_dir w = (Ret dirs, w)
    ∧ NoDup dirs
    ∧ (target_dir ∉ dirs)
    ∧ ∀ d, d ∈ dirs ↔
        ∃ q rest name,
          q ≠ []
          ∧ d = extend target_dir q
          ∧ is_Some (w_fs w !! (resolve w target_dir ++ q ++ rest ++ [name]))
          ∧ endswith ".py" name = true.
Proof.
  destruct (rglob_py_run target_dir w) as (found & Hrun & Hfound).
  unfold find_python_directories. rewrite run_bind, Hrun. cbv zeta.
  eexists. split; [reflexivity|].
  assert (Hq : ∀ q,
    q ∈ remove_dups (concat (prefixes <$>
            remove_dups ((λ k, removelast k) <$> found)))
    ↔ q ≠ [] ∧ ∃ rest name,
        is_Some (w_fs w !! (resolve w target_dir ++ q ++ rest ++ [name]))
        ∧ endswith ".py" name = true).
  { intros q. rewrite elem_of_remove_dups, list_elem_of_In, in_concat.
    setoid_rewrite <- list_elem_of_In. split.
    - intros (ps & Hps & Hqp).
      apply list_elem_of_fmap in Hps as (p & -> & Hp).
      apply elem_of_remove_dups, list_elem_of_fmap in Hp as (rel & -> & Hrel).
      apply Hfound in Hrel as (init & name & -> & Hfs & Hpy).
      rewrite removelast_last in Hqp.
      apply elem_of_prefixes in Hqp as [Hne [rest ->]].
      split; [done|]. exists rest, name. by rewrite <- app_assoc in Hfs.
    - intros (Hne & rest & name & Hfs & Hpy).
      exists (prefixes (q ++ rest)). split.
      + apply list_elem_of_fmap. exists (q ++ rest). split; [done|].
        apply elem_of_remove_dups, list_elem_of_fmap.
        exists ((q ++ rest) ++ [name]). split; [by rewrite removelast_last|].
        apply Hfound. exists (q ++ rest), name.
        by rewrite <- !app_assoc.
      + apply elem_of_prefixes. split; [done | by apply prefix_app_r]. }
  split_and!.
  - apply NoDup_fmap_2; [|apply NoDup_remove_dups].
    intros q1 q2. apply extend_inj.
  - intros Ht. apply list_elem_of_fmap in Ht as (q & Heq & Hin).
    symmetry in Heq. apply extend_nil in Heq as ->.
    by apply Hq in Hin as [? _].
  - intros d. rewrite list_elem_of_fmap. split.
    + intros (q & -> & Hin). apply Hq in Hin as (Hne & rest & name & ? & ?).
      by exists q, rest, name.
    + intros (q & rest & name & Hne & -> & ? & ?).
      exists q. split; [done|]. apply Hq. split; [done|]. by exists rest, name.
Qed.

(** X10. [find_python_directories] reads the file system and changes
    nothing. It returns, without repeats, the directories strictly below
    [target_dir] that have a path matching [*.py] in them or further
    below; [target_dir] itself is never among them. *)
Theorem find_python_directories_spec (target_dir : pth) (w : world) :
  ∃ dirs,
    find_python_directories target_dir w = (Ret dirs, w)
    ∧ NoDup dirs
    ∧ (target_dir ∉ dirs)
    ∧ ∀ d, d ∈ dirs ↔
        ∃ q rest name,
          q ≠ []
          ∧ d = extend target_dir q
          ∧ is_Some (w_fs w !! (resolve w target_dir ++ q ++ rest ++ [name]))
          ∧ endswith ".py" name = true.
Proof. apply find_python_directories_run. Qed.

End FindFacts.

(** ** The installation *)

Module InstallFacts.
Import Examples ExamplesVocabulary InstallVocabulary ExamplesFacts FindFacts.

#[local] Arguments fs_exists : simpl never.
#[local] Arguments fs_is_dir : simpl never.
#[local] Arguments fs_move : simpl never.
#[local] Arguments fs_remove : simpl never.
#[local] Arguments resolve : simpl never.
#[local] Arguments str_path : simpl never.
#[local] Arguments joinpath : simpl never.
#[local] Arguments Path : simpl never.

(** X11. When the package directory [idaes_examples] exists beside the
    target directory, [install_src] raises [InstallError] before it
    touches anything: the world is as before. *)
Theorem install_src_package_exists (E : env) (version : string)
    (target_dir : pth) (w : world) :
  fs_exists (w_fs w) (resolve w (parent target_dir // INSTALL_PKG)) = true →
  install_src E version target_dir w
  = (Raise (InstallError (package_exists_message target_dir)), w).
Proof.
  intros Hex. unfold install_src. cbv zeta.
  rewrite run_bind. run. rewrite Hex. reflexivity.
Qed.

Lemma install_src_package_exists_witness :
  install_src demo_env "1.5.0" (Path "examples") package_world
  = (Raise (InstallError "package directory idaes_examples already exists"),
     package_world).
Proof.
  apply (install_src_package_exists demo_env "1.5.0" (Path "examples")
           package_world).
  reflexivity.
Defined.

Lemma install_src_package_exists_run (E : env) (version : string)
    (target_dir : pth) (w : world) :
  fs_exists (w_fs w) (resolve w (parent target_dir // INSTALL_PKG)) = true →
  install_src E version target_dir w
  = (Raise (InstallError (package_exists_message target_dir)), w).
Proof.
  intros Hex. unfold install_src. cbv zeta.
  rewrite run_bind. run. rewrite Hex. reflexivity.
Qed.

(** X12. With [--no-download], when the package directory exists,
    [get_examples] reports the install error and exits with status -1;
    all it does is print two lines. *)
Theorem get_examples_install_error (E : env) (directory version : string)
    (w : world) :
  fs_exists (w_fs w) (resolve w (parent (Path directory) // INSTALL_PKG))
    = true →
  get_examples E directory false false true version w
  = (Raise (SystemExit (-1)),
     with_event (with_event w (Echo "Installing..."))
       (Echo ("Install error: "
              +:+ package_exists_message (Path directory)))).
Proof.
  intros Hex. unfold get_examples. cbv zeta.
  rewrite run_bind. cbv [when mret M_ret]. cbv beta iota.
  rewrite run_bind. cbv beta iota. cbn [negb].
  rewrite run_bind, echo_run. rewrite run_bind.
  unfold try_except at 1.
  rewrite install_src_package_exists_run
    by (by rewrite resolve_with_event).
  reflexivity.
Qed.

Lemma get_examples_install_error_witness :
  get_examples demo_env "examples" false false true "1.5.0" package_world
  = (Raise (SystemExit (-1)),
     with_event (with_event package_world (Echo "Installing..."))
       (Echo "Install error: package directory idaes_examples already exists")).
Proof.
  apply (get_examples_install_error demo_env "examples" "1.5.0"
           package_world).
  reflexivity.
Defined.


(** ** What keeps the current directory and [sys.argv] *)

Section Keeps.

Lemma keeps_ret {A} (a : A) : keeps_process (mret a : M A).
Proof. by intros w. Qed.

Lemma keeps_raise {A} (e : exn) : keeps_process (@raise A e).
Proof. by intros w. Qed.

Lemma keeps_emit (e : event) : keeps_process (emit e).
Proof. by intros w. Qed.

Lemma keeps_get_world : keeps_process get_world.
Proof. by intros w. Qed.

Lemma keeps_set_fs fs : keeps_process (set_fs fs).
Proof. by intros w. Qed.

Lemma keeps_bind {A B} (m : M A) (k : A → M B) :
  keeps_process m → (∀ a, keeps_process (k a)) → keeps_process (m ≫= k).
Proof.
  intros Hm Hk w. rewrite run_bind. destruct (Hm w) as [H1 H2].
  destruct (m w) as [[a|e] w1]; simpl in *; [|done].
  destruct (Hk a w1) as [H3 H4]. split; congruence.
Qed.

Lemma keeps_when (c : bool) (m : M unit) :
  keeps_process m → keeps_process (when c m).
Proof. destruct c; [done | intros _; apply keeps_ret]. Qed.

Lemma keeps_for_each {A} (l : list A) (f : A → M unit) :
  (∀ a, keeps_process (f a)) → keeps_process (for_each l f).
Proof.
  intros Hf. induction l as [|a l IH]; simpl.
  - apply keeps_ret.
  - apply keeps_bind; [apply Hf | intros _; apply IH].
Qed.

End Keeps.

Ltac keeps_step :=
  first
    [ apply keeps_bind; [|intros ?]
    | apply keeps_ret
    | apply keeps_raise
    | apply keeps_emit
    | apply keeps_get_world
    | apply keeps_set_fs
    | apply keeps_when
    | apply keeps_for_each; intros ?
    | match goal with
      | |- keeps_process (if ?b then _ else _) => destruct b
      | |- keeps_process (match ?x with _ => _ end) => destruct x
      end ].

Ltac keeps_tac := cbv beta zeta; repeat keeps_step.

Lemma keeps_path_exists p : keeps_process (path_exists p).
Proof. unfold path_exists. keeps_tac. Qed.

Lemma keeps_os_rename src dst : keeps_process (os_rename src dst).
Proof. unfold os_rename. keeps_tac. Qed.

Lemma keeps_rmtree p : keeps_process (rmtree p).
Proof. unfold rmtree. keeps_tac. Qed.

Lemma keeps_write_to ev p data : keeps_process (write_to ev p data).
Proof. unfold write_to. keeps_tac. Qed.

Lemma keeps_unlink p : keeps_process (unlink p).
Proof. unfold unlink. keeps_tac. Qed.

Lemma keeps_find_python_directories p :
  keeps_process (find_python_directories p).
Proof. unfold find_python_directories, rglob_py. keeps_tac. Qed.

Lemma keeps_find_packages E : keeps_process (find_packages E).
Proof. unfold find_packages. keeps_tac. Qed.

Lemma keeps_setup E pkg version packages :
  keeps_process (setup E pkg version packages).
Proof. unfold setup. keeps_tac. Qed.

Lemma chdir_ret (p : pth) (w w' : world) :
  chdir p w = (Ret tt, w') →
  w_cwd w' = resolve w p ∧ w_argv w' = w_argv w.
Proof.
  unfold chdir. run. destruct (fs_is_dir _ _); intros ?; by simplify_eq.
Qed.

(** From [m w = (Ret a, w1)] and [keeps_process m]. *)
Lemma keeps_at {A} (m : M A) (w w1 : world) (r : result A) :
  keeps_process m → m w = (r, w1) →
  w_cwd w1 = w_cwd w ∧ w_argv w1 = w_argv w.
Proof. intros Hk Hm. specialize (Hk w). by rewrite Hm in Hk. Qed.

Tactic Notation "ret_step" hyp(H) ident(Hs) ident(a) ident(wn) :=
  rewrite run_bind in H;
  match type of H with
  | context [match ?m ?w with _ => _ end] =>
      destruct (m w) as [[a|?] wn] eqn:Hs; [|discriminate H]
  end.

(** X13. An [install_src] that returns has restored [sys.argv], and has
    left the process in the parent directory of the target:
    [os.chdir(orig_dir)] goes to [os.curdir], which is where the process
    already is. *)
Theorem install_src_process_state (E : env) (version : string)
    (target_dir : pth) (w w' : world) :
  install_src E version target_dir w = (Ret tt, w') →
  w_argv w' = w_argv w
  ∧ w_cwd w' = resolve w (parent target_dir).
Proof.
  unfold install_src. cbv zeta. intros H.
  ret_step H H1 ex w1.
  apply (keeps_at _ _ _ _ (keeps_path_exists _)) in H1 as [C1 A1].
  ret_step H H2 u2 w2.
  apply (keeps_at _ _ _ _ (keeps_when _ _ (keeps_raise _))) in H2 as [C2 A2].
  ret_step H H3 saved w3. injection H3 as Hsv Hw3. subst saved w3.
  ret_step H H4 u4 w4. injection H4 as Hw4. subst w4.
  ret_step H H5 found w5.
  apply (keeps_at _ _ _ _ (keeps_find_python_directories _)) in H5 as [C5 _].
  ret_step H H6 u6 w6.
  apply (keeps_at _ _ _ _
           (keeps_for_each _ _ (λ d, keeps_write_to _ _ _))) in H6 as [C6 _].
  ret_step H H7 u7 w7.
  apply (keeps_at _ _ _ _ (keeps_os_rename _ _)) in H7 as [C7 _].
  ret_step H H8 bex w8.
  apply (keeps_at _ _ _ _ (keeps_path_exists _)) in H8 as [C8 _].
  ret_step H H9 moved w9.
  assert (C9 : w_cwd w9 = w_cwd w8).
  { destruct bex.
    - revert H9. rewrite run_bind.
      destruct (os_rename _ _ w8) as [[[]|e] wr] eqn:Hr; [|done].
      apply (keeps_at _ _ _ _ (keeps_os_rename _ _)) in Hr as [Cr _].
      intros Hm. injection Hm as _ Hw9. by subst w9.
    - injection H9 as _ Hw9. by subst w9. }
  ret_step H H10 u10 w10. destruct u10. apply chdir_ret in H10 as [C10 _].
  ret_step H H11 pk w11.
  apply (keeps_at _ _ _ _ (keeps_find_packages _)) in H11 as [C11 _].
  ret_step H H12 u12 w12.
  apply (keeps_at _ _ _ _ (keeps_setup _ _ _ _)) in H12 as [C12 _].
  ret_step H H13 u13 w13.
  apply (keeps_at _ _ _ _ (keeps_os_rename _ _)) in H13 as [C13 _].
  ret_step H H14 u14 w14.
  apply (keeps_at _ _ _ _
           (keeps_for_each _ _ (λ d, keeps_unlink _))) in H14 as [C14 _].
  ret_step H H15 u15 w15.
  apply (keeps_at _ _ _ _ (keeps_rmtree _)) in H15 as [C15 _].
  ret_step H H16 u16 w16.
  assert (C16 : w_cwd w16 = w_cwd w15).
  { destruct moved.
    - by apply (keeps_at _ _ _ _ (keeps_os_rename _ _)) in H16 as [? _].
    - injection H16 as Hw16. by subst w16. }
  ret_step H H17 u17 w17. injection H17 as Hw17. subst w17.
  apply chdir_ret in H as [CH AH].
  split.
  - rewrite AH. cbn [w_argv with_argv]. congruence.
  - rewrite CH. change (Path ".") with (Rel []).
    unfold resolve at 1. rewrite app_nil_r. cbn [w_cwd with_argv].
    rewrite C16, C15, C14, C13, C12, C11, C10.
    assert (Hc : w_cwd w9 = w_cwd w).
    { rewrite C9, C8, C7, C6, C5. cbn [w_cwd with_argv]. congruence. }
    destruct (parent target_dir); unfold resolve; [done | by rewrite Hc].
Qed.

Lemma install_src_process_state_witness :
  w_cwd downloaded_world = ["tmp"]
  ∧ w_argv (install_src demo_env "1.5.0" (Path "/home/examples")
              downloaded_world).2
    = ["idaes"; "get-examples"]
  ∧ w_cwd (install_src demo_env "1.5.0" (Path "/home/examples")
             downloaded_world).2
    = ["home"].
Proof.
  split; [reflexivity|].
  apply (install_src_process_state demo_env "1.5.0" (Path "/home/examples")
           downloaded_world).
  vm_compute. reflexivity.
Defined.


Lemma joinpath_init (p : pth) : p // "__init__.py" = extend p ["__init__.py"].
Proof. by destruct p. Qed.

Lemma resolve_extend (w : world) (p : pth) (l : list string) :
  resolve w (extend p l) = resolve w p ++ l.
Proof. destruct p; unfold resolve; simpl; [done | by rewrite app_assoc]. Qed.

Lemma resolve_with_argv (w : world) (a : list string) (p : pth) :
  resolve (with_argv w a) p = resolve w p.
Proof. by destruct p. Qed.

Lemma install_src_missing_target_run (E : env) (version : string)
    (target_dir : pth) (w : world) :
  fs_exists (w_fs w) (resolve w (parent target_dir // INSTALL_PKG)) = false →
  resolve w target_dir ≠ [] →
  (∀ k, resolve w target_dir `prefix_of` k → w_fs w !! k = None) →
  install_src E version target_dir w
  = (Raise (FileNotFoundError (resolve w target_dir ++ ["__init__.py"])),
     with_event (with_argv w ["setup.py"; "install"])
       (Touch (resolve w target_dir ++ ["__init__.py"]))).
Proof.
  intros Hpkg Hne Hnone. unfold install_src. cbv zeta.
  rewrite run_bind. unfold path_exists at 1. rewrite run_bind.
  cbv [get_world mret M_ret]. cbv beta iota. rewrite Hpkg.
  rewrite run_bind. cbv [when mret M_ret]. cbv beta iota.
  rewrite run_bind. unfold get_argv at 1. rewrite run_bind.
  cbv [get_world mret M_ret]. cbv beta iota.
  rewrite run_bind. cbv [set_argv]. cbv beta iota.
  rewrite run_bind.
  destruct (find_python_directories_run target_dir
              (with_argv w ["setup.py"; "install"]))
    as (dirs & -> & _ & _ & Hdirs).
  assert (dirs = []) as ->.
  { destruct dirs as [|d dirs]; [done|]. exfalso.
    destruct (proj1 (Hdirs d)) as (q & rest & name & _ & _ & [n Hn] & _);
      [by left|].
    rewrite resolve_with_argv in Hn. cbn [w_fs with_argv] in Hn.
    rewrite Hnone in Hn; [done | by apply prefix_app_r]. }
  cbn [app for_each]. rewrite run_bind. rewrite run_bind.
  unfold write_to. run.
  rewrite joinpath_init, resolve_extend, resolve_with_argv.
  rewrite removelast_last. cbn [w_fs with_argv].
  assert (fs_is_dir (w_fs w) (resolve w target_dir) = false) as ->.
  { unfold fs_is_dir. rewrite bool_decide_eq_false_2 by done.
    rewrite bool_decide_eq_false_2; [done|].
    rewrite Hnone; [done | reflexivity]. }
  reflexivity.
Qed.

(** X14. When there is nothing at the target directory (and no package
    directory beside it), [install_src] fails on the first file it
    creates, with [FileNotFoundError] for [target_dir/__init__.py]. The
    file system is as before, and [sys.argv] is left as
    [["setup.py", "install"]]: it is not restored. *)
Theorem install_src_missing_target (E : env) (version : string)
    (target_dir : pth) (w : world) :
  fs_exists (w_fs w) (resolve w (parent target_dir // INSTALL_PKG)) = false →
  resolve w target_dir ≠ [] →
  (∀ k, resolve w target_dir `prefix_of` k → w_fs w !! k = None) →
  (install_src E version target_dir w).1
    = Raise (FileNotFoundError (resolve w target_dir ++ ["__init__.py"]))
  ∧ w_fs (install_src E version target_dir w).2 = w_fs w
  ∧ w_argv (install_src E version target_dir w).2 = ["setup.py"; "install"].
Proof.
  intros H1 H2 H3.
  by rewrite (install_src_missing_target_run E version target_dir w H1 H2 H3).
Qed.

Lemma install_src_missing_target_witness :
  (install_src demo_env "1.5.0" (Path "examples") demo_world).1
    = Raise (FileNotFoundError ["home"; "examples"; "__init__.py"])
  ∧ w_fs (install_src demo_env "1.5.0" (Path "examples") demo_world).2
    = demo_fs
  ∧ w_argv (install_src demo_env "1.5.0" (Path "examples") demo_world).2
    = ["setup.py"; "install"].
Proof.
  apply (install_src_missing_target demo_env "1.5.0" (Path "examples")
           demo_world).
  - reflexivity.
  - discriminate.
  - intros k [q ->]. unfold demo_world, demo_fs. cbn [w_fs].
    rewrite !lookup_insert_ne by discriminate. apply lookup_empty.
Defined.

(** X15. [get-examples --no-download] with nothing at the target directory
    does not end with the message and exit status of an install error: the
    [FileNotFoundError] of [install_src] is not an [InstallError], and
    [get_examples] lets it through. *)
Theorem get_examples_no_download_missing_target (E : env)
    (directory version : string) (w : world) :
  fs_exists (w_fs w) (resolve w (parent (Path directory) // INSTALL_PKG))
    = false →
  resolve w (Path directory) ≠ [] →
  (∀ k, resolve w (Path directory) `prefix_of` k → w_fs w !! k = None) →
  (get_examples E directory false false true version w).1
    = Raise (FileNotFoundError
               (resolve w (Path directory) ++ ["__init__.py"]))
  ∧ w_trace (get_examples E directory false false true version w).2
    = w_trace w ++
      [ Echo "Installing...";
        Touch (resolve w (Path directory) ++ ["__init__.py"]) ].
Proof.
  intros H1 H2 H3. unfold get_examples. cbv zeta.
  rewrite run_bind. cbv [when mret M_ret]. cbv beta iota.
  rewrite run_bind. cbv beta iota. cbn [negb].
  rewrite run_bind, echo_run. rewrite run_bind.
  unfold try_except.
  rewrite !install_src_missing_target_run;
    rewrite ?resolve_with_event; try done.
  cbn [fst snd w_trace with_event with_argv].
  by rewrite <- app_assoc.
Qed.

Lemma get_examples_no_download_missing_target_witness :
  (get_examples demo_env "examples" false false true "1.5.0" demo_world).1
    = Raise (FileNotFoundError ["home"; "examples"; "__init__.py"])
  ∧ w_trace
      (get_examples demo_env "examples" false false true "1.5.0" demo_world).2
    = [ Echo "Installing..."; Touch ["home"; "examples"; "__init__.py"] ].
Proof.
  apply (get_examples_no_download_missing_target demo_env "examples" "1.5.0"
           demo_world).
  - reflexivity.
  - discriminate.
  - intros k [q ->]. unfold demo_world, demo_fs. cbn [w_fs].
    rewrite !lookup_insert_ne by discriminate. apply lookup_empty.
Defined.

End InstallFacts.

(** ** The order of the steps *)

Module OrderFacts.
Import Examples ExamplesVocabulary OrderVocabulary ExamplesFacts
  FileSystemFacts DownloadFacts PrintFacts.

#[local] Arguments fs_exists : simpl never.
#[local] Arguments fs_is_dir : simpl never.
#[local] Arguments fs_move : simpl never.
#[local] Arguments fs_remove : simpl never.
#[local] Arguments fs_unpack : simpl never.
#[local] Arguments resolve : simpl never.
#[local] Arguments archive_file_url : simpl never.
#[local] Arguments str_path : simpl never.
#[local] Arguments joinpath : simpl never.
#[local] Arguments Path : simpl never.

(** ** A returning installation has run setup *)






(** ** The installation part *)




End OrderFacts.

(* ========================================================================= *)
(** * Further properties of the ideal equation of state *)

Module IdealMixtureFacts.
Import Ideal IdealVocabulary IdealFacts.

Local Open Scope Q_scope.

Lemma weighted_sum_sub (x g h s : string → Q) (T : Q) (js : list string) :
  (∀ j, j ∈ js → g j == h j - s j * T) →
  weighted_sum x g js
  == weighted_sum x h js - weighted_sum x s js * T.
Proof.
  induction js as [|j js IH]; intros Hg; cbn [weighted_sum].
  - ring.
  - rewrite IH by (intros j' Hj'; apply Hg; by right).
    rewrite (Hg j) by by left. ring.
Qed.

Lemma weighted_sum_le (x y : string → Q) (hi : Q) (js : list string) :
  (∀ j, j ∈ js → 0 <= x j) →
  (∀ j, j ∈ js → y j <= hi) →
  weighted_sum x y js <= hi * weighted_sum x (λ _, 1) js.
Proof.
  induction js as [|j js IH]; intros Hx Hy; cbn [weighted_sum].
  - rewrite Qmult_0_r. apply Qle_refl.
  - setoid_replace (hi * (x j * 1 + weighted_sum x (λ _, 1) js))
      with (hi * x j + hi * weighted_sum x (λ _, 1) js) using relation Qeq
      by ring.
    apply Qplus_le_compat.
    + rewrite (Qmult_comm (x j)).
      apply Qmult_le_compat_r; [apply Hy | apply Hx]; by left.
    + apply IH; intros j' Hj'; [apply Hx | apply Hy]; by right.
Qed.

Lemma weighted_sum_ge (x y : string → Q) (lo : Q) (js : list string) :
  (∀ j, j ∈ js → 0 <= x j) →
  (∀ j, j ∈ js → lo <= y j) →
  lo * weighted_sum x (λ _, 1) js <= weighted_sum x y js.
Proof.
  induction js as [|j js IH]; intros Hx Hy; cbn [weighted_sum].
  - rewrite Qmult_0_r. apply Qle_refl.
  - setoid_replace (lo * (x j * 1 + weighted_sum x (λ _, 1) js))
      with (lo * x j + lo * weighted_sum x (λ _, 1) js) using relation Qeq
      by ring.
    apply Qplus_le_compat.
    + rewrite (Qmult_comm (x j)).
      apply Qmult_le_compat_r; [apply Hy | apply Hx]; by left.
    + apply IH; intros j' Hj'; [apply Hx | apply Hy]; by right.
Qed.

(** X16. The Gibbs energy of the mixture agrees with its enthalpy and
    entropy. When the Gibbs energy the block holds for each component in
    the phase has the value of the expression [gibbs_mol_phase_comp]
    returns for it, the value of [gibbs_mol_phase] is the value of
    [enth_mol_phase] minus the value of [entr_mol_phase] times the
    temperature. *)
Theorem ideal_gibbs_consistency {CompObj : Type} (b : StateBlock CompObj)
    (p : string) (v : string → Q) :
  (∀ j g, j ∈ b_components_in_phase b p →
          gibbs_mol_phase_comp b p j = Ret g →
          eval v (b_gibbs_mol_phase_comp b p j) == eval v g) →
  ∃ G H S,
    gibbs_mol_phase b p = Ret G
    ∧ enth_mol_phase b p = Ret H
    ∧ entr_mol_phase b p = Ret S
    ∧ eval v G == eval v H - eval v S * eval v (b_temperature b).
Proof.
  intros Hbound. do 3 eexists. repeat split.
  rewrite !eval_py_sum_weighted.
  apply weighted_sum_sub. intros j Hj.
  by rewrite (Hbound j _ Hj eq_refl).
Qed.

Lemma ideal_gibbs_consistency_witness :
  ∃ G H S,
    gibbs_mol_phase bound_block "Liq" = Ret G
    ∧ enth_mol_phase bound_block "Liq" = Ret H
    ∧ entr_mol_phase bound_block "Liq" = Ret S
    ∧ eval demo_values G
      == eval demo_values H
         - eval demo_values S * eval demo_values (b_temperature bound_block).
Proof.
  apply (ideal_gibbs_consistency bound_block "Liq" demo_values).
  intros j g _ [= <-]. reflexivity.
Defined.

(** X17. The ideal gas law. For a vapour phase, with gas constant times
    temperature not zero, the compressibility factor [Z] that
    [compress_fact_phase] returns and the molar density [rho] that
    [dens_mol_phase] returns satisfy [P = Z rho R T] on values. *)
Theorem ideal_gas_law {CompObj : Type} (b : StateBlock CompObj)
    (p : string) (v : string → Q) :
  is_vapor_phase (b_get_phase b p) = true →
  ¬ eval v gas_constant * eval v (b_temperature b) == 0 →
  ∃ Z rho,
    compress_fact_phase b p = Ret Z
    ∧ dens_mol_phase b p = Ret rho
    ∧ eval v (b_pressure b)
      == eval v Z * eval v rho
         * (eval v gas_constant * eval v (b_temperature b)).
Proof.
  intros Hv HRT. unfold compress_fact_phase, dens_mol_phase. cbv zeta.
  rewrite Hv. cbn [orb]. do 2 eexists. repeat split.
  cbn [eval]. field.
  split; intros H0; apply HRT; rewrite H0; ring.
Qed.

Lemma ideal_gas_law_witness :
  ∃ Z rho,
    compress_fact_phase demo_block "Vap" = Ret Z
    ∧ dens_mol_phase demo_block "Vap" = Ret rho
    ∧ eval demo_values (b_pressure demo_block)
      == eval demo_values Z * eval demo_values rho
         * (eval demo_values gas_constant
            * eval demo_values (b_temperature demo_block)).
Proof.
  apply (ideal_gas_law demo_block "Vap" demo_values).
  - reflexivity.
  - vm_compute. discriminate.
Defined.

(** X18. A mixture property lies between the extremes of its components.
    For each of [enth_mol_phase], [entr_mol_phase] and [gibbs_mol_phase]:
    when the mole fractions of the components in the phase are not negative
    and sum to one, and the property of every component in the phase lies
    between [lo] and [hi], so does the value of the expression returned. *)
Theorem ideal_mixture_bounds {CompObj : Type} (b : StateBlock CompObj)
    (p : string) (v : string → Q) (lo hi : Q)
    (method : string → result expr) (prop : string → string → expr) :
  (method, prop) ∈ mixture_methods b →
  (∀ j, j ∈ b_components_in_phase b p →
        0 <= eval v (b_mole_frac_phase_comp b p j)) →
  mole_frac_sum b p v == 1 →
  (∀ j, j ∈ b_components_in_phase b p →
        lo <= eval v (prop p j) ∧ eval v (prop p j) <= hi) →
  ∃ e, method p = Ret e ∧ lo <= eval v e ∧ eval v e <= hi.
Proof.
  intros Hin Hx Hsum Hy.
  assert (∃ e, method p = Ret e
               ∧ eval v e
                 == weighted_sum (λ j, eval v (b_mole_frac_phase_comp b p j))
                      (λ j, eval v (prop p j)) (b_components_in_phase b p))
    as (e & He & Hv).
  { unfold mixture_methods in Hin.
    rewrite !elem_of_cons, elem_of_nil in Hin.
    destruct Hin as [[= -> ->]|[[= -> ->]|[[= -> ->]|[]]]];
      (eexists; split; [reflexivity | apply eval_py_sum_weighted]). }
  exists e. split; [done|]. rewrite Hv. unfold mole_frac_sum in Hsum. split.
  - setoid_replace lo with (lo * 1) using relation Qeq by ring. rewrite <- Hsum.
    apply weighted_sum_ge; [done | intros j Hj; by apply Hy].
  - setoid_replace hi with (hi * 1) using relation Qeq by ring. rewrite <- Hsum.
    apply weighted_sum_le; [done | intros j Hj; by apply Hy].
Qed.

Lemma ideal_mixture_bounds_witness :
  ∃ e, gibbs_mol_phase bound_block "Liq" = Ret e
       ∧ -150 <= eval demo_values e ∧ eval demo_values e <= 0.
Proof.
  apply (ideal_mixture_bounds bound_block "Liq" demo_values (-150) 0
           (gibbs_mol_phase bound_block)
           (b_gibbs_mol_phase_comp bound_block)).
  - unfold mixture_methods. do 2 right. left.
  - intros j Hj. cbn in Hj. rewrite !elem_of_cons, elem_of_nil in Hj.
    destruct Hj as [->|[->|[]]]; vm_compute; discriminate.
  - vm_compute. reflexivity.
  - intros j Hj. cbn in Hj. rewrite !elem_of_cons, elem_of_nil in Hj.
    destruct Hj as [->|[->|[]]]; split; vm_compute; discriminate.
Defined.

End IdealMixtureFacts.
